(** * Feed controller of the seedit profile and author views

    A shallow embedding of the controller logic found in
    [src/views/author/author.tsx] and [src/views/profile/profile.tsx]:
    the projections (filter, sort), the client-side pagination, the
    error-visibility effect, the error-logging effect, the footer and
    empty-state rendering conditions and the process-wide store of
    viewport snapshots.

    React components are modelled as explicit state machines: the
    values kept by [useState] and [useRef] form the state, the values
    returned by the data hooks are the inputs of a render, and each
    [useEffect] body is a function from the state before to the state
    after.  The effects are run after every render; running one again
    on unchanged dependencies changes nothing, so this agrees with
    React running it only when a dependency changed. *)

From stdpp Require Import gmap strings list fin_maps pretty sorting.
From Stdlib Require Import ZArith Lia Permutation Sorted Ascii.

Local Open Scope string_scope.
Local Open Scope Z_scope.

(** ** JavaScript primitives used by the views *)

Module Js.

(** Truthiness of a [string | undefined] value: [undefined] and the
    empty string are falsy. *)
Definition truthy (v : option string) : bool :=
  match v with
  | Some s => negb (String.eqb s "")
  | None => false
  end.

(** [Array.prototype.slice]: relative index normalisation. *)
Definition rel_index (len i : Z) : Z :=
  if i <? 0 then Z.max (len + i) 0 else Z.min i len.

(** [arr.slice(start, end)]. *)
Definition slice {A} (start final : Z) (l : list A) : list A :=
  let len := Z.of_nat (length l) in
  let k := rel_index len start in
  let e := rel_index len final in
  take (Z.to_nat (e - k)) (drop (Z.to_nat k) l).

(** [Array.prototype.sort] with a comparator.  The language
    specification requires the sort to be stable; the model inserts
    each element in front of the already sorted rest and moves it
    right only past elements that the comparator puts strictly
    before it. *)
Fixpoint insert {A} (cmp : A -> A -> Z) (x : A) (l : list A) : list A :=
  match l with
  | [] => [x]
  | y :: ys => if cmp x y <=? 0 then x :: y :: ys else y :: insert cmp x ys
  end.

Fixpoint sort {A} (cmp : A -> A -> Z) (l : list A) : list A :=
  match l with
  | [] => []
  | x :: xs => insert cmp x (sort cmp xs)
  end.

(** [a ?? b] on an optional string. *)
Definition nullish (v : option string) (d : string) : string :=
  match v with Some s => s | None => d end.

(** [a + b] where both operands are [string | undefined]: string
    concatenation as soon as one operand is a string, numeric
    addition of two [undefined] otherwise (the key is then the
    property name of [NaN]). *)
Definition plus (a b : option string) : string :=
  match a, b with
  | None, None => "NaN"
  | _, _ => nullish a "undefined" +:+ nullish b "undefined"
  end.

End Js.

(** ** Data model *)

(** A comment as the views read it: its [cid], its optional
    [parentCid] and its [timestamp]. *)
Record Comment := mkComment {
  cid : string;
  parentCid : option string;
  timestamp : Z
}.

(** An account vote. *)
Record Vote := mkVote {
  vote : Z;
  commentCid : string;
  voteTimestamp : Z
}.

(** The error value carried next to the data by every data hook. *)
Record ErrorInfo := mkError { message : string }.

(** [SizeRange] and [StateSnapshot] of the virtualization library. *)
Record SizeRange := mkRange { startIndex : Z; endIndex : Z; size : Z }.

Record StateSnapshot := mkSnapshot {
  ranges : option (list SizeRange);
  scrollTop : Z
}.

(** The local account: its short address and its [blockedCids]
    object, given by its entries in key-iteration order. *)
Record Account := mkAccount {
  shortAddress : option string;
  blockedCids : option (list (string * bool))
}.

#[global] Instance ErrorInfo_eq_dec : EqDecision ErrorInfo.
Proof. solve_decision. Defined.

#[global] Instance SizeRange_eq_dec : EqDecision SizeRange.
Proof. solve_decision. Defined.

#[global] Instance StateSnapshot_eq_dec : EqDecision StateSnapshot.
Proof. solve_decision. Defined.

#[global] Instance Comment_eq_dec : EqDecision Comment.
Proof. solve_decision. Defined.

Definition pageSize : Z := 10.
Definition sortTypes : list string := ["new"; "old"].

(** ** Projections *)

(** [comment.parentCid] used as a condition. *)
Definition isReply (comment : Comment) : bool := Js.truthy (parentCid comment).

(** The comparator shared by every sorted view:
    [sortType === 'new' ? b.timestamp - a.timestamp : a.timestamp - b.timestamp]. *)
Definition byTimestamp (sortType : string) (a b : Comment) : Z :=
  if String.eqb sortType "new" then timestamp b - timestamp a
  else timestamp a - timestamp b.

Definition byVoteTimestamp (sortType : string) (a b : Vote) : Z :=
  if String.eqb sortType "new" then voteTimestamp b - voteTimestamp a
  else voteTimestamp a - voteTimestamp b.

Module Author.

(** [authorComments?.filter((comment) => comment && comment.parentCid) || []] *)
Definition replyComments (authorComments : option (list (option Comment)))
  : list (option Comment) :=
  match authorComments with
  | Some l =>
      List.filter (fun c => match c with Some c => isReply c | None => false end) l
  | None => []
  end.

(** [authorComments?.filter((comment) => comment && !comment.parentCid) || []] *)
Definition postComments (authorComments : option (list (option Comment)))
  : list (option Comment) :=
  match authorComments with
  | Some l =>
      List.filter (fun c => match c with Some c => negb (isReply c) | None => false end) l
  | None => []
  end.

(** The data handed to the virtualized list. *)
Definition virtuosoData (isInAuthorCommentsView isInAuthorSubmittedView : bool)
    (authorComments : option (list (option Comment)))
  : option (list (option Comment)) :=
  if isInAuthorCommentsView then Some (replyComments authorComments)
  else if isInAuthorSubmittedView then Some (postComments authorComments)
  else authorComments.

End Author.

Module Profile.

(** Comments: [accountComments?.filter((comment) => comment.parentCid) || []]. *)
Definition replyComments (accountComments : option (list Comment)) : list Comment :=
  match accountComments with
  | Some l => List.filter isReply l
  | None => []
  end.

(** Submitted: [accountComments?.filter((comment) => !comment.parentCid) || []]. *)
Definition postComments (accountComments : option (list Comment)) : list Comment :=
  match accountComments with
  | Some l => List.filter (fun c => negb (isReply c)) l
  | None => []
  end.

(** VotedComments: filter by vote sign, sort, map to the comment cids. *)
Definition filteredVotes (accountVotes : option (list Vote)) (voteType : Z) : list Vote :=
  match accountVotes with
  | Some l => List.filter (fun v => vote v =? voteType) l
  | None => []
  end.

Definition sortedVotes (accountVotes : option (list Vote)) (voteType : Z)
    (sortType : string) : list Vote :=
  Js.sort (byVoteTimestamp sortType) (filteredVotes accountVotes voteType).

Definition votedCommentCids (accountVotes : option (list Vote)) (voteType : Z)
    (sortType : string) : list string :=
  map commentCid (sortedVotes accountVotes voteType sortType).

(** ** Client-side pagination *)

(** [votedCommentCids.slice((currentPage - 1) * pageSize, currentPage * pageSize)] *)
Definition paginatedCids (votedCommentCids : list string) (currentPage : Z)
  : list string :=
  Js.slice ((currentPage - 1) * pageSize) (currentPage * pageSize) votedCommentCids.

(** [currentPage * pageSize < votedCommentCids.length] *)
Definition votedHasMore (votedCommentCids : list string) (currentPage : Z) : bool :=
  currentPage * pageSize <? Z.of_nat (length votedCommentCids).

(** [Object.keys(account?.blockedCids ?? {})] *)
Definition allHiddenCids (account : option Account) : list string :=
  match account with
  | Some a => match blockedCids a with Some o => map fst o | None => [] end
  | None => []
  end.

(** [allHiddenCids.slice(0, currentPage * pageSize)] *)
Definition hiddenCommentCids (account : option Account) (currentPage : Z)
  : list string :=
  Js.slice 0 (currentPage * pageSize) (allHiddenCids account).

(** [(account?.blockedCids && Object.keys(account.blockedCids).length
     > currentPage * pageSize) || false] *)
Definition hiddenHasMore (account : option Account) (currentPage : Z) : bool :=
  match account with
  | Some a =>
      match blockedCids a with
      | Some o => Z.of_nat (length (map fst o)) >? currentPage * pageSize
      | None => false
      end
  | None => false
  end.

End Profile.

(** The slice and the [hasMore] flag of the client-paged adapter as the
    specification words them: [sequence[(pageIndex-1)*pageSize :
    pageIndex*pageSize]] and [pageIndex*pageSize < sequence.length]. *)
Definition spec_visibleSlice {A} (sequence : list A) (pageIndex : Z) : list A :=
  take (Z.to_nat pageSize) (drop (Z.to_nat ((pageIndex - 1) * pageSize)) sequence).

Definition spec_hasMore {A} (sequence : list A) (pageIndex : Z) : Prop :=
  pageIndex * pageSize < Z.of_nat (length sequence).

(** ** Component state shared by every feed with an error banner *)

(** The [useState] flag deciding whether the banner is rendered, the
    [useRef] cell of the logging effect and the console output. *)
Record FeedState := mkFeedState {
  shouldShowErrorToUser : bool;
  prevErrorMessageRef : option string;
  console : list ErrorInfo
}.

Definition initialFeedState : FeedState :=
  {| shouldShowErrorToUser := false; prevErrorMessageRef := None; console := [] |}.

Definition setShouldShowErrorToUser (b : bool) (st : FeedState) : FeedState :=
  {| shouldShowErrorToUser := b;
     prevErrorMessageRef := prevErrorMessageRef st;
     console := console st |}.

(** [error?.message] *)
Definition errorMessage (error : option ErrorInfo) : option string :=
  message <$> error.

(** The logging effect, identical in every component:
    [if (error && error.message !== prevErrorMessageRef.current)
       { console.log(error); prevErrorMessageRef.current = error.message; }] *)
Definition logEffect (error : option ErrorInfo) (st : FeedState) : FeedState :=
  match error with
  | Some e =>
      if decide (Some (message e) = prevErrorMessageRef st) then st
      else {| shouldShowErrorToUser := shouldShowErrorToUser st;
              prevErrorMessageRef := Some (message e);
              console := console st ++ [e] |}
  | None => st
  end.

(** What a render displays besides the rows. *)
Record View := mkView {
  errorBanner : bool;
  loadingFooter : bool;
  nothingFound : bool;
  previousButton : bool;
  nextButton : bool
}.

(** [PaginationControls]: the block is rendered when
    [hasMore || currentPage > 1]; inside it, "previous" when
    [currentPage > 1] and "next" when [hasMore]. *)
Definition paginationPrevious (currentPage : Z) (hasMore : bool) : bool :=
  (hasMore || (currentPage >? 1)) && (currentPage >? 1).

Definition paginationNext (currentPage : Z) (hasMore : bool) : bool :=
  (hasMore || (currentPage >? 1)) && hasMore.

Module AuthorView.

(** Values returned by the hooks for one render of [Author]. *)
Record Props := mkProps {
  error : option ErrorInfo;
  authorComments : option (list (option Comment));
  hasMore : bool;
  isInAuthorCommentsView : bool;
  isInAuthorSubmittedView : bool
}.

Definition data (p : Props) : option (list (option Comment)) :=
  Author.virtuosoData (isInAuthorCommentsView p) (isInAuthorSubmittedView p)
    (authorComments p).

(** [virtuosoData?.length === 0] and [virtuosoData?.length > 0] *)
Definition lengthIsZero {A} (d : option (list A)) : bool :=
  match d with Some l => (length l =? 0)%nat | None => false end.

Definition lengthIsPositive {A} (d : option (list A)) : bool :=
  match d with Some l => (0 <? length l)%nat | None => false end.

(** [if (error?.message && virtuosoData?.length === 0) set(true)
     else if (virtuosoData?.length > 0) set(false)] *)
Definition showErrorEffect (error : option ErrorInfo)
    (virtuosoData : option (list (option Comment))) (shown : bool) : bool :=
  if Js.truthy (errorMessage error) && lengthIsZero virtuosoData then true
  else if lengthIsPositive virtuosoData then false
  else shown.

(** The effects of one render, in declaration order. *)
Definition commit (st : FeedState) (p : Props) : FeedState :=
  let st := logEffect (error p) st in
  setShouldShowErrorToUser
    (showErrorEffect (error p) (data p) (shouldShowErrorToUser st)) st.

Definition run (st : FeedState) (trace : list Props) : FeedState :=
  fold_left commit trace st.

(** The [Footer] component and the "nothing found" block. *)
Definition render (st : FeedState) (p : Props) : View :=
  {| errorBanner := shouldShowErrorToUser st;
     loadingFooter := hasMore p;
     nothingFound := lengthIsZero (data p) && negb (hasMore p);
     previousButton := false;
     nextButton := false |}.

(** [`${authorAddress ?? ''}${sortType ?? ''}`] *)
Definition snapshotKey (authorAddress sortType : option string) : string :=
  Js.nullish authorAddress "" +:+ Js.nullish sortType "".

End AuthorView.

Module ProfileView.

(** The effect of [Overview], [Comments] and [Submitted]:
    [if (error?.message && sortedComments.length === 0) set(true)
     else if (sortedComments.length > 0) set(false)] *)
Definition showErrorEffect {A} (error : option ErrorInfo)
    (sortedComments : list A) (shown : bool) : bool :=
  if Js.truthy (errorMessage error) && (length sortedComments =? 0)%nat then true
  else if (0 <? length sortedComments)%nat then false
  else shown.

(** The effect of [VotedComments]:
    [if (error?.message && paginatedCids.length === 0 && hasMore) set(true)
     else if (paginatedCids.length > 0) set(false)] *)
Definition votedShowErrorEffect (error : option ErrorInfo)
    (paginatedCids : list string) (hasMore : bool) (shown : bool) : bool :=
  if Js.truthy (errorMessage error) && (length paginatedCids =? 0)%nat && hasMore
  then true
  else if (0 <? length paginatedCids)%nat then false
  else shown.

(** What one render of an account-comment feed depends on: the
    values of [useAccountComments] and the selected sort type. *)
Record Props := mkProps {
  error : option ErrorInfo;
  accountComments : list Comment;
  sortType : string
}.

(** The three components over [useAccountComments]. *)
Inductive AccountFeed := Overview | Comments | Submitted.

(** The collection each of them sorts: [accountComments] itself,
    [replyComments] or [postComments]. *)
Definition filteredComments (feed : AccountFeed) (p : Props) : list Comment :=
  match feed with
  | Overview => accountComments p
  | Comments => Profile.replyComments (Some (accountComments p))
  | Submitted => Profile.postComments (Some (accountComments p))
  end.

(** [[...filtered].sort((a, b) => sortType === 'new' ? ... : ...)] *)
Definition sortedComments (feed : AccountFeed) (p : Props) : list Comment :=
  Js.sort (byTimestamp (sortType p)) (filteredComments feed p).

(** The effects of one render. *)
Definition commit (feed : AccountFeed) (st : FeedState) (p : Props) : FeedState :=
  let st := logEffect (error p) st in
  setShouldShowErrorToUser
    (showErrorEffect (error p) (sortedComments feed p) (shouldShowErrorToUser st)) st.

Definition run (feed : AccountFeed) (st : FeedState) (trace : list Props)
  : FeedState :=
  fold_left (commit feed) trace st.

(** These three components render no footer and no page controls. *)
Definition render (feed : AccountFeed) (st : FeedState) (p : Props) : View :=
  {| errorBanner := shouldShowErrorToUser st;
     loadingFooter := false;
     nothingFound := (length (sortedComments feed p) =? 0)%nat;
     previousButton := false;
     nextButton := false |}.

(** *** [VotedComments] *)

Record VotedState := mkVotedState {
  v_error : option ErrorInfo;
  v_accountVotes : option (list Vote);
  v_voteType : Z;
  v_currentPage : Z;
  v_sortType : string;
  v_feed : FeedState
}.

Definition votedInitial (voteType : Z) : VotedState :=
  {| v_error := None; v_accountVotes := None; v_voteType := voteType;
     v_currentPage := 1; v_sortType := "new"; v_feed := initialFeedState |}.

Definition votedCids (s : VotedState) : list string :=
  Profile.votedCommentCids (v_accountVotes s) (v_voteType s) (v_sortType s).

Definition votedSlice (s : VotedState) : list string :=
  Profile.paginatedCids (votedCids s) (v_currentPage s).

Definition votedMore (s : VotedState) : bool :=
  Profile.votedHasMore (votedCids s) (v_currentPage s).

(** What can happen to a mounted [VotedComments]: the hook delivers new
    values, the parent passes another [voteType], the user picks an
    entry of the sort dropdown, or clicks one of the page controls. *)
Inductive VotedEvent :=
| HookUpdate (error : option ErrorInfo) (accountVotes : option (list Vote))
| VoteTypeChange (voteType : Z)
| SortChange (index : nat)
| ClickPrevious
| ClickNext.

Definition votedEffects (s : VotedState) : VotedState :=
  let st := logEffect (v_error s) (v_feed s) in
  {| v_error := v_error s; v_accountVotes := v_accountVotes s;
     v_voteType := v_voteType s; v_currentPage := v_currentPage s;
     v_sortType := v_sortType s;
     v_feed := setShouldShowErrorToUser
                 (votedShowErrorEffect (v_error s) (votedSlice s) (votedMore s)
                    (shouldShowErrorToUser st)) st |}.

Definition setPage (page : Z) (s : VotedState) : VotedState :=
  {| v_error := v_error s; v_accountVotes := v_accountVotes s;
     v_voteType := v_voteType s; v_currentPage := page;
     v_sortType := v_sortType s; v_feed := v_feed s |}.

(** A click only reaches its handler when the control is rendered. *)
Definition votedHandle (s : VotedState) (ev : VotedEvent) : VotedState :=
  match ev with
  | HookUpdate error accountVotes =>
      {| v_error := error; v_accountVotes := accountVotes;
         v_voteType := v_voteType s; v_currentPage := v_currentPage s;
         v_sortType := v_sortType s; v_feed := v_feed s |}
  | VoteTypeChange voteType =>
      {| v_error := v_error s; v_accountVotes := v_accountVotes s;
         v_voteType := voteType; v_currentPage := v_currentPage s;
         v_sortType := v_sortType s; v_feed := v_feed s |}
  | SortChange index =>
      match sortTypes !! index with
      | Some sortType =>
          {| v_error := v_error s; v_accountVotes := v_accountVotes s;
             v_voteType := v_voteType s; v_currentPage := v_currentPage s;
             v_sortType := sortType; v_feed := v_feed s |}
      | None => s
      end
  | ClickPrevious =>
      if paginationPrevious (v_currentPage s) (votedMore s)
      then setPage (v_currentPage s - 1) s else s
  | ClickNext =>
      if paginationNext (v_currentPage s) (votedMore s)
      then setPage (v_currentPage s + 1) s else s
  end.

Definition votedStep (s : VotedState) (ev : VotedEvent) : VotedState :=
  votedEffects (votedHandle s ev).

(** Mounting runs the effects once; every event re-renders. *)
Definition votedRun (voteType : Z) (trace : list VotedEvent) : VotedState :=
  fold_left votedStep trace (votedEffects (votedInitial voteType)).

Definition votedRender (s : VotedState) : View :=
  {| errorBanner := shouldShowErrorToUser (v_feed s);
     loadingFooter := false;
     nothingFound := (length (votedSlice s) =? 0)%nat;
     previousButton := paginationPrevious (v_currentPage s) (votedMore s);
     nextButton := paginationNext (v_currentPage s) (votedMore s) |}.

(** *** [HiddenComments] *)

Definition hiddenRender (account : option Account) (currentPage : Z) : View :=
  let hasMore := Profile.hiddenHasMore account currentPage in
  {| errorBanner := false;
     loadingFooter := false;
     nothingFound := (length (Profile.hiddenCommentCids account currentPage) =? 0)%nat;
     previousButton := paginationPrevious currentPage hasMore;
     nextButton := paginationNext currentPage hasMore |}.

(** [account?.shortAddress + params.sortType] *)
Definition snapshotKey (account : option Account) (sortType : option string) : string :=
  Js.plus (account ≫= shortAddress) sortType.

End ProfileView.

(** ** Snapshot store *)

Module SnapshotStore.

(** [snapshot?.ranges?.length] used as a condition. *)
Definition hasRanges (snapshot : option StateSnapshot) : bool :=
  match snapshot with
  | Some s =>
      match ranges s with
      | Some r => negb (length r =? 0)%nat
      | None => false
      end
  | None => false
  end.

(** The scroll listener.  [virtuosoRef] is [None] when the ref holds
    no handle; otherwise it holds the snapshot that [getState] passes
    to the callback. *)
Definition setLastVirtuosoState (key : string)
    (virtuosoRef : option (option StateSnapshot))
    (lastVirtuosoStates : gmap string StateSnapshot) : gmap string StateSnapshot :=
  match virtuosoRef with
  | Some (Some snapshot) =>
      if hasRanges (Some snapshot) then <[key := snapshot]> lastVirtuosoStates
      else lastVirtuosoStates
  | _ => lastVirtuosoStates
  end.

(** A scroll event of a mounted feed: the key captured by the
    listener and the state of the ref at that moment. *)
Record Scroll := mkScroll {
  scrollKey : string;
  scrollRef : option (option StateSnapshot)
}.

Definition onScroll (store : gmap string StateSnapshot) (ev : Scroll)
  : gmap string StateSnapshot :=
  setLastVirtuosoState (scrollKey ev) (scrollRef ev) store.

Definition scrolls (store : gmap string StateSnapshot) (evs : list Scroll)
  : gmap string StateSnapshot :=
  fold_left onScroll evs store.

(** [lastVirtuosoStates?.[key]] *)
Definition load (key : string) (store : gmap string StateSnapshot)
  : option StateSnapshot := store !! key.

Definition nonDegenerate (s : StateSnapshot) : Prop :=
  exists r, ranges s = Some r /\ r <> [].

(** The snapshot handed to the callback by a scroll event, if any. *)
Definition received (ev : Scroll) : option StateSnapshot :=
  match scrollRef ev with
  | Some snapshot => snapshot
  | None => None
  end.

End SnapshotStore.

(** ** Rows *)

(** What a row of a feed is rendered as, and from which comment. *)
Inductive Row :=
| PostRow (post : option Comment)
| ReplyRow (reply : option Comment).

(** The result of [useComment] as [CommentItem] reads it. *)
Record FetchedComment := mkFetched {
  fetched : Comment;
  subplebbitAddress : option string
}.

Module Rows.

(** [itemContent] of [Author]:
    [const isReply = post?.parentCid;
     return !isReply ? <Post post={post} /> : <Reply reply={post} />] *)
Definition authorItemContent (post : option Comment) : Row :=
  if negb (Js.truthy (post ≫= parentCid)) then PostRow post else ReplyRow post.

(** The rows the virtualized list of [Author] can materialize: one per
    entry of [virtuosoData]. *)
Definition authorRows (p : AuthorView.Props) : list Row :=
  match AuthorView.data p with
  | Some l => map authorItemContent l
  | None => []
  end.

(** [itemContent] of [VirtualizedCommentList]:
    [post?.parentCid ? <Reply reply={post} /> : <Post post={post} />] *)
Definition listItemContent (post : Comment) : Row :=
  if Js.truthy (parentCid post) then ReplyRow (Some post) else PostRow (Some post).

(** [sortedComments.length === 0 ? nothing found
     : <VirtualizedCommentList comments={sortedComments} />] *)
Definition profileRows (feed : ProfileView.AccountFeed) (p : ProfileView.Props)
  : list Row :=
  map listItemContent (ProfileView.sortedComments feed p).

(** [CommentItem]:
    [if (!comment || !comment.subplebbitAddress) return null;
     return comment.parentCid ? <Reply reply={comment} /> : <Post post={comment} />] *)
Definition commentItem (comment : option FetchedComment) : option Row :=
  match comment with
  | Some c =>
      if negb (Js.truthy (subplebbitAddress c)) then None
      else if isReply (fetched c) then Some (ReplyRow (Some (fetched c)))
      else Some (PostRow (Some (fetched c)))
  | None => None
  end.

(** The states a mounted [VotedComments] renders, from [s] on. *)
Fixpoint votedHistory (s : ProfileView.VotedState)
    (trace : list ProfileView.VotedEvent) : list ProfileView.VotedState :=
  s :: match trace with
       | [] => []
       | ev :: trace => votedHistory (ProfileView.votedStep s ev) trace
       end.

(** [paginatedCids.map((cid) => <CommentItem key={cid} cid={cid} />)];
    [useComment] is the hook resolving a cid.  Each row is keyed by its
    cid.  As long as every render of the component had distinct keys,
    the rendered rows are the mapped list of the current slice; React
    gives no contract once a render had a repeated key, and the model
    gives no rows then ([None]). *)
Definition votedRows (useComment : string -> option FetchedComment)
    (voteType : Z) (trace : list ProfileView.VotedEvent)
  : option (list (option Row)) :=
  if bool_decide
       (Forall (fun s => NoDup (ProfileView.votedSlice s))
          (votedHistory (ProfileView.votedEffects (ProfileView.votedInitial voteType))
             trace))
  then Some (map (fun cid => commentItem (useComment cid))
               (ProfileView.votedSlice (ProfileView.votedRun voteType trace)))
  else None.

End Rows.

(** ** [SortDropdown] *)

Module SortDropdown.

(** The two [useState] cells of the dropdown and the sort type of the
    parent component, which [onSortChange] sets. *)
Record State := mkState {
  selectedSort : string;
  isDropdownOpen : bool;
  parentSortType : string
}.

(** [useState(sortTypes[0])], [useState(false)]; the parents start
    with [useState('new')]. *)
Definition initial : State :=
  {| selectedSort := nth 0 sortTypes "";
     isDropdownOpen := false;
     parentSortType := "new" |}.

(** A click on the dropdown title, a click on the choice rendered for
    [sortTypes[index]], or a mouse-down anywhere in the document, inside
    or outside the two elements the refs point to. *)
Inductive Event :=
| ClickDropdown
| ClickChoice (index : nat)
| MouseDown (insideDropdown insideChoices : bool).

(** [handleSortChange]: [setSelectedSort(sortType);
    setIsDropdownOpen(false); onSortChange(sortType)] *)
Definition handleSortChange (sortType : string) (s : State) : State :=
  {| selectedSort := sortType; isDropdownOpen := false; parentSortType := sortType |}.

(** [handleClickOutside]: with both refs attached, the list is closed
    when the target of the mouse-down is in neither element. *)
Definition handleClickOutside (insideDropdown insideChoices : bool) (s : State)
  : State :=
  if negb insideDropdown && negb insideChoices
  then {| selectedSort := selectedSort s; isDropdownOpen := false;
          parentSortType := parentSortType s |}
  else s.

(** One choice is rendered per entry of [sortTypes]; there is nothing
    to click at another index. *)
Definition handle (s : State) (ev : Event) : State :=
  match ev with
  | ClickDropdown =>
      {| selectedSort := selectedSort s;
         isDropdownOpen := negb (isDropdownOpen s);
         parentSortType := parentSortType s |}
  | ClickChoice index =>
      match sortTypes !! index with
      | Some sortType => handleSortChange sortType s
      | None => s
      end
  | MouseDown insideDropdown insideChoices =>
      handleClickOutside insideDropdown insideChoices s
  end.

Definition run (trace : list Event) : State := fold_left handle trace initial.

End SortDropdown.

(** ** [HiddenComments] as a state machine *)

Module HiddenView.

Record State := mkState {
  h_account : option Account;
  h_currentPage : Z
}.

Definition initial (account : option Account) : State :=
  {| h_account := account; h_currentPage := 1 |}.

Inductive Event :=
| AccountUpdate (account : option Account)
| ClickPrevious
| ClickNext.

Definition shown (s : State) : list string :=
  Profile.hiddenCommentCids (h_account s) (h_currentPage s).

Definition more (s : State) : bool :=
  Profile.hiddenHasMore (h_account s) (h_currentPage s).

(** A click only reaches its handler when the control is rendered. *)
Definition handle (s : State) (ev : Event) : State :=
  match ev with
  | AccountUpdate account =>
      {| h_account := account; h_currentPage := h_currentPage s |}
  | ClickPrevious =>
      if paginationPrevious (h_currentPage s) (more s)
      then {| h_account := h_account s; h_currentPage := h_currentPage s - 1 |}
      else s
  | ClickNext =>
      if paginationNext (h_currentPage s) (more s)
      then {| h_account := h_account s; h_currentPage := h_currentPage s + 1 |}
      else s
  end.

Definition run (account : option Account) (trace : list Event) : State :=
  fold_left handle trace (initial account).

End HiddenView.

(** ** The infobar of [Profile] *)

Module Infobar.

(** The two [localStorage] items the component reads; [None] is the
    [null] that [getItem] returns for a missing item. *)
Record Storage := mkStorage {
  profileVisits : option string;
  importedAccountAddress : option string
}.

(** What [parseInt] returns, as far as it is modelled: [NaN], an
    integer that a number holds exactly, or a value beyond the modelled
    part (see [parseInt]). *)
Inductive Parsed :=
| NaN
| Int (value : Z)
| Beyond.

(** [Number.MAX_SAFE_INTEGER], 2^53 - 1. *)
Definition maxSafeInteger : Z := 9007199254740991.

Definition isAscii (c : Ascii.ascii) : bool := (Ascii.nat_of_ascii c <? 128)%nat.

Fixpoint allAscii (s : string) : bool :=
  match s with
  | String c rest => isAscii c && allAscii rest
  | EmptyString => true
  end.

(** The white space characters of the language that are ASCII. *)
Definition isWhiteSpace (c : Ascii.ascii) : bool :=
  let n := Ascii.nat_of_ascii c in
  ((n =? 32) || ((9 <=? n) && (n <=? 13)))%nat.

Fixpoint skipWhiteSpace (s : string) : string :=
  match s with
  | String c rest => if isWhiteSpace c then skipWhiteSpace rest else s
  | EmptyString => s
  end.

(** The value of a character as a digit in the given radix. *)
Definition digitValue (radix : Z) (c : Ascii.ascii) : option Z :=
  let n := Z.of_nat (Ascii.nat_of_ascii c) in
  let v := if (48 <=? n) && (n <=? 57) then Some (n - 48)
           else if (97 <=? n) && (n <=? 122) then Some (n - 87)
           else if (65 <=? n) && (n <=? 90) then Some (n - 55)
           else None in
  match v with
  | Some d => if d <? radix then Some d else None
  | None => None
  end.

(** The longest prefix of digits, read as a number; [acc] is [None]
    until a digit has been read. *)
Fixpoint parseDigits (radix : Z) (acc : option Z) (s : string) : option Z :=
  match s with
  | String c rest =>
      match digitValue radix c with
      | Some d =>
          parseDigits radix
            (Some (radix * (match acc with Some a => a | None => 0 end) + d)) rest
      | None => acc
      end
  | EmptyString => acc
  end.

(** The mathematical integer that [parseInt(string)] reads without a
    radix: white space is skipped, a sign is read, a [0x] prefix selects
    radix 16, and the longest prefix of digits is the result; [None]
    when there is no digit. *)
Definition parseInteger (s : string) : option Z :=
  let s := skipWhiteSpace s in
  let '(sign, s) :=
    match s with
    | String "-"%char rest => (-1, rest)
    | String "+"%char rest => (1, rest)
    | _ => (1, s)
    end in
  let '(radix, s) :=
    match s with
    | String "0"%char (String "x"%char rest) => (16, rest)
    | String "0"%char (String "X"%char rest) => (16, rest)
    | _ => (10, s)
    end in
  Z.mul sign <$> parseDigits radix None s.

(** [parseInt(string)].  Two parts of it are not modelled and give
    [Beyond]: a string with a character outside ASCII (the language
    also skips white space characters that are not ASCII), and an
    integer outside the safe range, which a number holds only after
    rounding. *)
Definition parseInt (s : string) : Parsed :=
  if negb (allAscii s) then Beyond
  else match parseInteger s with
       | None => NaN
       | Some z =>
           if (- maxSafeInteger <=? z) && (z <=? maxSafeInteger) then Int z
           else Beyond
       end.

(** [stored !== address] between the [string | null] of [getItem] and
    a [string | undefined]: [null] and [undefined] are different. *)
Definition differs (stored address : option string) : bool :=
  match stored, address with
  | Some a, Some b => negb (String.eqb a b)
  | _, _ => true
  end.

(** The initializer of [useState] in [Profile], run once per mount:
    [const profileVisits = parseInt(localStorage.getItem('profileVisits') || '0');
     const shouldShow = profileVisits < 4
       && importedAccountAddress !== account?.author?.address;
     if (shouldShow) localStorage.setItem('profileVisits',
                                          (profileVisits + 1).toString());
     return shouldShow;]
    [address] is [account?.author?.address].  The result is the flag and
    the storage after the mount, and [None] where [parseInt] is beyond
    the model and the flag depends on it.  For a safe integer below 4
    the sum [profileVisits + 1] is exact and [toString] writes its
    decimal digits, which is what [pretty] writes. *)
Definition mount (address : option string) (ls : Storage)
  : option (bool * Storage) :=
  let item := match profileVisits ls with
              | Some s => if Js.truthy (Some s) then s else "0"
              | None => "0"
              end in
  if negb (differs (importedAccountAddress ls) address) then Some (false, ls)
  else match parseInt item with
       | NaN => Some (false, ls)
       | Int visits =>
           if visits <? 4
           then Some (true, {| profileVisits := Some (pretty (visits + 1));
                               importedAccountAddress := importedAccountAddress ls |})
           else Some (false, ls)
       | Beyond => None
       end.


(** The infobar flags of [n] successive visits of the profile page and
    the storage after them. *)
Fixpoint visits (address : option string) (n : nat) (ls : Storage)
  : option (list bool * Storage) :=
  match n with
  | O => Some ([], ls)
  | S n =>
      match mount address ls with
      | Some (shown, ls) =>
          match visits address n ls with
          | Some (flags, ls) => Some (shown :: flags, ls)
          | None => None
          end
      | None => None
      end
  end.

End Infobar.

(** ** Reading the snapshot store *)

(** The snapshot of the last scroll event that saved under [key]. *)
Definition lastSaved (key : string) (evs : list SnapshotStore.Scroll)
  : option StateSnapshot :=
  fold_left
    (fun acc ev =>
       if bool_decide (SnapshotStore.scrollKey ev = key)
          && SnapshotStore.hasRanges (SnapshotStore.received ev)
       then SnapshotStore.received ev else acc)
    evs None.

(** The page indices [1 .. n]. *)
Definition pagesUpTo (n : nat) : list Z := map Z.of_nat (seq 1 n).

(** ** The logging effect alone *)

(** The logging effect run on a sequence of hook errors. *)
Definition logAll (errors : list (option ErrorInfo)) (st : FeedState) : FeedState :=
  fold_left (fun st error => logEffect error st) errors st.

(** The errors among a sequence of hook values. *)
Definition present (errors : list (option ErrorInfo)) : list ErrorInfo :=
  omap id errors.

(** ** Invariants *)

(** No two consecutive console entries carry the same message. *)
Definition noRepeat (l : list ErrorInfo) : Prop :=
  forall (i : nat) (a b : ErrorInfo),
    l !! i = Some a -> l !! S i = Some b -> message a <> message b.

(** The ref cell holds the message of the last console entry. *)
Definition logInv (st : FeedState) : Prop :=
  prevErrorMessageRef st = message <$> last (console st) /\ noRepeat (console st).

(** The invariant of a mounted [VotedComments]. *)
Definition votedInv (s : ProfileView.VotedState) : Prop :=
  1 <= ProfileView.v_currentPage s /\
  shouldShowErrorToUser (ProfileView.v_feed s) = false.

(** ** Sample data *)

(** An account that has hidden twenty-five comments. *)
Definition hidden25 : Account :=
  {| shortAddress := Some "acct";
     blockedCids :=
       Some (map (fun n : nat => (String (Ascii.ascii_of_nat (65 + n)) "", true)) (seq 0 25)) |}.

(** Eleven upvotes cast at successive times. *)
Definition elevenUpvotes : list Vote :=
  map (fun n : nat =>
         mkVote 1 (String (Ascii.ascii_of_nat (65 + n)) "") (Z.of_nat n))
      (seq 0 11).

Definition errorA : ErrorInfo := mkError "timeout".
Definition errorB : ErrorInfo := mkError "offline".

(** * Properties *)

(** ** Slicing *)

Section SliceFacts.
Context {A : Type}.
Implicit Types l : list A.

Lemma take_clip (n : nat) l : take (n `min` length l) l = take n l.
Proof.
  destruct (Nat.le_ge_cases n (length l)) as [H|H].
  - by rewrite Nat.min_l.
  - rewrite Nat.min_r by done. by rewrite !take_ge.
Qed.

(** A window [[a, b)] with [0 <= a <= b]. *)
Lemma slice_window (a b : Z) l :
  0 <= a <= b ->
  Js.slice a b l = take (Z.to_nat (b - a)) (drop (Z.to_nat a) l).
Proof.
  intros [Ha Hab]. unfold Js.slice, Js.rel_index.
  assert ((a <? 0) = false) as -> by lia.
  assert ((b <? 0) = false) as -> by lia.
  destruct (Z_lt_le_dec a (Z.of_nat (length l))) as [Hlt|Hge].
  - rewrite (Z.min_l a) by lia.
    rewrite <- (take_clip (Z.to_nat (b - a))).
    rewrite <- (take_clip (Z.to_nat (_ - a))).
    f_equal. rewrite length_drop. lia.
  - rewrite (Z.min_r a) by lia.
    rewrite !drop_ge by lia. by rewrite !take_nil.
Qed.

Lemma slice_prefix (b : Z) l :
  0 <= b -> Js.slice 0 b l = take (Z.to_nat b) l.
Proof.
  intros Hb. rewrite slice_window by lia.
  rewrite Z.sub_0_r. reflexivity.
Qed.

Lemma slice_length_window (a b : Z) l :
  0 <= a <= b ->
  Z.of_nat (length (Js.slice a b l))
  = Z.max 0 (Z.min (b - a) (Z.of_nat (length l) - a)).
Proof.
  intros H. rewrite slice_window by done.
  rewrite length_take, length_drop. lia.
Qed.

End SliceFacts.

(** ** Pagination of the two client-paged feeds *)

Lemma paginatedCids_spec (sequence : list string) (pageIndex : Z) :
  1 <= pageIndex ->
  Profile.paginatedCids sequence pageIndex = spec_visibleSlice sequence pageIndex.
Proof.
  intros Hp. unfold Profile.paginatedCids, spec_visibleSlice, pageSize.
  rewrite slice_window by lia. do 2 f_equal. lia.
Qed.

Lemma votedHasMore_spec (sequence : list string) (pageIndex : Z) :
  Profile.votedHasMore sequence pageIndex = true <-> spec_hasMore sequence pageIndex.
Proof. unfold Profile.votedHasMore, spec_hasMore. apply Z.ltb_lt. Qed.

Lemma hiddenCommentCids_prefix (account : option Account) (pageIndex : Z) :
  1 <= pageIndex ->
  Profile.hiddenCommentCids account pageIndex
  = take (Z.to_nat (pageIndex * pageSize)) (Profile.allHiddenCids account).
Proof.
  intros Hp. unfold Profile.hiddenCommentCids, pageSize.
  apply slice_prefix. lia.
Qed.

Lemma hiddenHasMore_spec (account : option Account) (pageIndex : Z) :
  0 <= pageIndex ->
  Profile.hiddenHasMore account pageIndex = true
  <-> spec_hasMore (Profile.allHiddenCids account) pageIndex.
Proof.
  intros Hp.
  unfold Profile.hiddenHasMore, Profile.allHiddenCids, spec_hasMore, pageSize.
  destruct account as [[sa [o|]]|]; simpl; try (split; [done | lia]).
  rewrite Z.gtb_ltb. apply Z.ltb_lt.
Qed.

(** C2, the claim as stated fails on the hidden feed: with twenty-five
    hidden comments, page 3 shows all twenty-five of them and not the
    five of [sequence[20 : 30]]; already page 2 differs from its window. *)
Lemma C2_counterexample :
  length (Profile.allHiddenCids (Some hidden25)) = 25%nat /\
  length (Profile.hiddenCommentCids (Some hidden25) 3) = 25%nat /\
  length (spec_visibleSlice (Profile.allHiddenCids (Some hidden25)) 3) = 5%nat /\
  Profile.hiddenCommentCids (Some hidden25) 2
    <> spec_visibleSlice (Profile.allHiddenCids (Some hidden25)) 2 /\
  ~ (forall (account : option Account) (pageIndex : Z), 1 <= pageIndex ->
       Profile.hiddenCommentCids account pageIndex
       = spec_visibleSlice (Profile.allHiddenCids account) pageIndex).
Proof.
  repeat split; try reflexivity.
  - vm_compute. discriminate.
  - intros H. specialize (H (Some hidden25) 2 ltac:(lia)).
    vm_compute in H. discriminate.
Qed.

(** C2 (amended): for every page index [>= 1], the vote-derived feed
    shows exactly [sequence[(pageIndex-1)*10 : pageIndex*10]], the hidden
    feed shows the prefix [sequence[0 : pageIndex*10]], and in both
    [hasMore] holds iff [pageIndex*10 < sequence.length].  With 25
    identifiers [hasMore] is true on pages 1 and 2 and false on page 3;
    the page-3 slice has length 5 in the vote-derived feed and 25 in the
    hidden feed. *)
Theorem C2_pagination :
  (forall (sequence : list string) (pageIndex : Z), 1 <= pageIndex ->
     Profile.paginatedCids sequence pageIndex = spec_visibleSlice sequence pageIndex /\
     (Profile.votedHasMore sequence pageIndex = true <-> spec_hasMore sequence pageIndex)) /\
  (forall (account : option Account) (pageIndex : Z), 1 <= pageIndex ->
     Profile.hiddenCommentCids account pageIndex
     = take (Z.to_nat (pageIndex * pageSize)) (Profile.allHiddenCids account) /\
     (Profile.hiddenHasMore account pageIndex = true
      <-> spec_hasMore (Profile.allHiddenCids account) pageIndex)) /\
  (forall sequence : list string, length sequence = 25%nat ->
     Profile.votedHasMore sequence 1 = true /\
     Profile.votedHasMore sequence 2 = true /\
     Profile.votedHasMore sequence 3 = false /\
     length (Profile.paginatedCids sequence 3) = 5%nat) /\
  (forall account : option Account,
     length (Profile.allHiddenCids account) = 25%nat ->
     Profile.hiddenHasMore account 1 = true /\
     Profile.hiddenHasMore account 2 = true /\
     Profile.hiddenHasMore account 3 = false /\
     length (Profile.hiddenCommentCids account 3) = 25%nat).
Proof.
  split; [|split; [|split]].
  - intros sequence p Hp. split.
    + by apply paginatedCids_spec.
    + apply votedHasMore_spec.
  - intros account p Hp. split.
    + by apply hiddenCommentCids_prefix.
    + apply hiddenHasMore_spec. lia.
  - intros sequence Hlen. unfold Profile.votedHasMore, pageSize.
    rewrite Hlen. repeat split.
    rewrite paginatedCids_spec by lia. unfold spec_visibleSlice, pageSize.
    rewrite length_take, length_drop, Hlen. reflexivity.
  - intros account Hlen.
    assert (forall p, 0 <= p ->
              Profile.hiddenHasMore account p = (p * 10 <? 25)) as Hm.
    { intros p Hp. apply Bool.eq_iff_eq_true.
      rewrite hiddenHasMore_spec by done.
      unfold spec_hasMore, pageSize. rewrite Hlen, Z.ltb_lt. lia. }
    rewrite !Hm by lia. repeat split.
    rewrite hiddenCommentCids_prefix by lia.
    rewrite length_take, Hlen. reflexivity.
Qed.

(** The amended pagination statement at a concrete account and page. *)
Lemma C2_pagination_witness :
  Profile.hiddenCommentCids (Some hidden25) 2
  = take 20 (Profile.allHiddenCids (Some hidden25)) /\
  length (Profile.paginatedCids (Profile.allHiddenCids (Some hidden25)) 3) = 5%nat.
Proof.
  split.
  - apply (proj1 (proj1 (proj2 C2_pagination) (Some hidden25) 2 ltac:(lia))).
  - apply (proj1 (proj2 (proj2 C2_pagination))
             (Profile.allHiddenCids (Some hidden25)) ltac:(reflexivity)).
Defined.

(** ** The vote-derived feed never shows its error banner *)

Lemma paginatedCids_empty_no_more (sequence : list string) (pageIndex : Z) :
  1 <= pageIndex ->
  Profile.paginatedCids sequence pageIndex = [] ->
  Profile.votedHasMore sequence pageIndex = false.
Proof.
  intros Hp Hnil.
  assert (Z.of_nat (length (Profile.paginatedCids sequence pageIndex)) = 0) as Hlen
    by (by rewrite Hnil).
  unfold Profile.paginatedCids, pageSize in Hlen.
  rewrite slice_length_window in Hlen by lia.
  unfold Profile.votedHasMore, pageSize. lia.
Qed.

Lemma logEffect_shown error st :
  shouldShowErrorToUser (logEffect error st) = shouldShowErrorToUser st.
Proof.
  unfold logEffect. destruct error as [e|]; [|done].
  by destruct (decide _).
Qed.

Lemma votedShowErrorEffect_stays_hidden error (sequence : list string) pageIndex :
  1 <= pageIndex ->
  ProfileView.votedShowErrorEffect error
    (Profile.paginatedCids sequence pageIndex)
    (Profile.votedHasMore sequence pageIndex) false = false.
Proof.
  intros Hp. unfold ProfileView.votedShowErrorEffect.
  destruct (Profile.paginatedCids sequence pageIndex) as [|c l] eqn:Hs.
  - rewrite (paginatedCids_empty_no_more _ _ Hp Hs).
    by rewrite Bool.andb_false_r.
  - simpl. by rewrite Bool.andb_false_r.
Qed.

Lemma votedHandle_inv s ev : votedInv s -> votedInv (ProfileView.votedHandle s ev).
Proof.
  intros [Hp Hs]. destruct ev as [e v|vt|i| |]; simpl.
  - done.
  - done.
  - by destruct (sortTypes !! i).
  - unfold paginationPrevious.
    destruct (ProfileView.votedMore s || _) eqn:E1; simpl; [|done].
    destruct (_ >? 1) eqn:E2; [|done].
    split; simpl; [lia | done].
  - destruct (paginationNext _ _); [|done].
    split; simpl; [lia | done].
Qed.

Lemma votedEffects_inv s : votedInv s -> votedInv (ProfileView.votedEffects s).
Proof.
  intros [Hp Hs]. split; simpl; [done|].
  rewrite logEffect_shown, Hs.
  by apply votedShowErrorEffect_stays_hidden.
Qed.

Lemma votedRun_inv voteType trace : votedInv (ProfileView.votedRun voteType trace).
Proof.
  unfold ProfileView.votedRun.
  assert (votedInv (ProfileView.votedEffects (ProfileView.votedInitial voteType))) as H0.
  { apply votedEffects_inv. split; simpl; [lia | done]. }
  revert H0. generalize (ProfileView.votedEffects (ProfileView.votedInitial voteType)).
  induction trace as [|ev trace IH]; intros s Hs; simpl; [done|].
  apply IH. unfold ProfileView.votedStep.
  by apply votedEffects_inv, votedHandle_inv.
Qed.

(** C3: in the vote-derived feed an empty visible slice on a page
    [>= 1] implies that [hasMore] is false, so the show-error condition
    (error, empty slice and [hasMore]) never holds and the visibility
    flag is false after every sequence of hook updates, sort changes
    and page clicks. *)
Theorem C3_voted_banner_unreachable :
  (forall (accountVotes : option (list Vote)) (voteType : Z) (sortType : string)
          (pageIndex : Z),
     1 <= pageIndex ->
     Profile.paginatedCids
       (Profile.votedCommentCids accountVotes voteType sortType) pageIndex = [] ->
     Profile.votedHasMore
       (Profile.votedCommentCids accountVotes voteType sortType) pageIndex = false) /\
  (forall (error : option ErrorInfo) (accountVotes : option (list Vote))
          (voteType : Z) (sortType : string) (pageIndex : Z),
     1 <= pageIndex ->
     let cids := Profile.votedCommentCids accountVotes voteType sortType in
     Js.truthy (errorMessage error)
     && (length (Profile.paginatedCids cids pageIndex) =? 0)%nat
     && Profile.votedHasMore cids pageIndex = false) /\
  (forall (voteType : Z) (trace : list ProfileView.VotedEvent),
     let s := ProfileView.votedRun voteType trace in
     1 <= ProfileView.v_currentPage s /\
     shouldShowErrorToUser (ProfileView.v_feed s) = false /\
     errorBanner (ProfileView.votedRender s) = false).
Proof.
  split; [|split].
  - intros ? ? ? p Hp. by apply paginatedCids_empty_no_more.
  - intros error ? ? ? p Hp cids.
    destruct (Profile.paginatedCids cids p) as [|c l] eqn:Hs.
    + rewrite (paginatedCids_empty_no_more _ _ Hp Hs).
      by rewrite Bool.andb_false_r.
    + simpl. by rewrite Bool.andb_false_r.
  - intros voteType trace s.
    destruct (votedRun_inv voteType trace) as [Hp Hs]. by repeat split.
Qed.

(** C3 at a concrete input: one upvote, page 2. *)
Lemma C3_voted_banner_unreachable_witness :
  Profile.votedHasMore
    (Profile.votedCommentCids (Some [mkVote 1 "Qm1" 5]) 1 "new") 2 = false.
Proof.
  apply (proj1 C3_voted_banner_unreachable (Some [mkVote 1 "Qm1" 5]) 1 "new" 2).
  - lia.
  - reflexivity.
Defined.

(** ** The error-visibility effect *)

Lemma truthy_errorMessage (error : option ErrorInfo) :
  Js.truthy (errorMessage error) = true
  <-> exists e, error = Some e /\ message e <> "".
Proof.
  destruct error as [[m]|]; simpl.
  - rewrite Bool.negb_true_iff, String.eqb_neq. split.
    + intros H. exists (mkError m). by split.
    + intros (e & [= <-] & H). exact H.
  - split; [done | by intros (e & ? & _)].
Qed.

Lemma lengthIsZero_spec {A} (d : option (list A)) :
  AuthorView.lengthIsZero d = true <-> d = Some [].
Proof.
  destruct d as [[|x l]|]; simpl; split; intros H; done.
Qed.

Lemma author_commit_shown st p :
  shouldShowErrorToUser (AuthorView.commit st p)
  = AuthorView.showErrorEffect (AuthorView.error p) (AuthorView.data p)
      (shouldShowErrorToUser st).
Proof. unfold AuthorView.commit. simpl. by rewrite logEffect_shown. Qed.

Lemma profile_commit_shown feed st p :
  shouldShowErrorToUser (ProfileView.commit feed st p)
  = ProfileView.showErrorEffect (ProfileView.error p)
      (ProfileView.sortedComments feed p) (shouldShowErrorToUser st).
Proof. unfold ProfileView.commit. simpl. by rewrite logEffect_shown. Qed.

Lemma voted_effects_shown s :
  shouldShowErrorToUser (ProfileView.v_feed (ProfileView.votedEffects s))
  = ProfileView.votedShowErrorEffect (ProfileView.v_error s)
      (ProfileView.votedSlice s) (ProfileView.votedMore s)
      (shouldShowErrorToUser (ProfileView.v_feed s)).
Proof. simpl. by rewrite logEffect_shown. Qed.

(** C1, the claim as stated fails in two ways.  An error object whose
    message is the empty string is present, yet with an empty projection
    the [Overview] flag stays hidden.  And the rule is not the same for
    the voted feeds: with the error "boom" and no votes at all, the
    upvoted feed stays hidden where [Overview] shows the banner. *)
Lemma C1_counterexample :
  (let p := ProfileView.mkProps (Some (mkError "")) [] "new" in
   ProfileView.error p <> None /\
   length (ProfileView.sortedComments ProfileView.Overview p) = 0%nat /\
   shouldShowErrorToUser
     (ProfileView.commit ProfileView.Overview initialFeedState p) = false) /\
  (let s := ProfileView.votedRun 1
              [ProfileView.HookUpdate (Some (mkError "boom")) (Some [])] in
   ProfileView.v_error s = Some (mkError "boom") /\
   length (ProfileView.votedSlice s) = 0%nat /\
   shouldShowErrorToUser (ProfileView.v_feed s) = false) /\
  (let p := ProfileView.mkProps (Some (mkError "boom")) [] "new" in
   length (ProfileView.sortedComments ProfileView.Overview p) = 0%nat /\
   shouldShowErrorToUser
     (ProfileView.commit ProfileView.Overview initialFeedState p) = true).
Proof. repeat split; try reflexivity. simpl. discriminate. Qed.

(** C1 (amended): in the author feed and in the overview, comments and
    submitted feeds, a hidden banner becomes shown by a render exactly
    when the incoming error carries a non-empty message and the current
    projection has no item (for the author feed: is defined and has no
    item). *)
Theorem C1_gate_hidden_to_shown :
  (forall (st : FeedState) (p : AuthorView.Props),
     shouldShowErrorToUser st = false ->
     (shouldShowErrorToUser (AuthorView.commit st p) = true
      <-> (exists e, AuthorView.error p = Some e /\ message e <> "")
          /\ AuthorView.data p = Some [])) /\
  (forall (feed : ProfileView.AccountFeed) (st : FeedState) (p : ProfileView.Props),
     shouldShowErrorToUser st = false ->
     (shouldShowErrorToUser (ProfileView.commit feed st p) = true
      <-> (exists e, ProfileView.error p = Some e /\ message e <> "")
          /\ length (ProfileView.sortedComments feed p) = 0%nat)).
Proof.
  split.
  - intros st p Hst. rewrite author_commit_shown, Hst.
    rewrite <- truthy_errorMessage, <- lengthIsZero_spec.
    unfold AuthorView.showErrorEffect.
    destruct (Js.truthy _), (AuthorView.data p) as [[|c l]|]; simpl;
      split; (done || by intros []).
  - intros feed st p Hst. rewrite profile_commit_shown, Hst.
    rewrite <- truthy_errorMessage.
    unfold ProfileView.showErrorEffect.
    destruct (Js.truthy _), (ProfileView.sortedComments feed p) as [|c l]; simpl;
      split; (done || by intros []).
Qed.

(** The amended transition rule on the [Comments] feed of an account
    with one post and a failing hook. *)
Lemma C1_gate_hidden_to_shown_witness :
  shouldShowErrorToUser
    (ProfileView.commit ProfileView.Comments initialFeedState
       (ProfileView.mkProps (Some (mkError "boom")) [mkComment "Qm1" None 7] "new"))
  = true.
Proof.
  apply (proj2 C1_gate_hidden_to_shown ProfileView.Comments initialFeedState).
  - reflexivity.
  - split; [|reflexivity].
    exists (mkError "boom"). split; [reflexivity | discriminate].
Defined.

(** C4: in every feed the banner is hidden by the first render whose
    projection has an item, whatever the error and the history; and a
    shown banner stays shown by a render whose error is absent while
    the projection is still empty. *)
Theorem C4_gate_hides_on_content :
  (forall (st : FeedState) (trace : list AuthorView.Props) (p : AuthorView.Props)
          (l : list (option Comment)),
     AuthorView.data p = Some l -> (0 < length l)%nat ->
     shouldShowErrorToUser (AuthorView.run st (trace ++ [p])) = false) /\
  (forall (feed : ProfileView.AccountFeed) (st : FeedState)
          (trace : list ProfileView.Props) (p : ProfileView.Props),
     (0 < length (ProfileView.sortedComments feed p))%nat ->
     shouldShowErrorToUser (ProfileView.run feed st (trace ++ [p])) = false) /\
  (forall (s : ProfileView.VotedState) (ev : ProfileView.VotedEvent),
     (0 < length (ProfileView.votedSlice (ProfileView.votedStep s ev)))%nat ->
     shouldShowErrorToUser (ProfileView.v_feed (ProfileView.votedStep s ev)) = false) /\
  (forall (st : FeedState) (p : AuthorView.Props),
     shouldShowErrorToUser st = true ->
     AuthorView.error p = None -> AuthorView.data p = Some [] ->
     shouldShowErrorToUser (AuthorView.commit st p) = true) /\
  (forall (feed : ProfileView.AccountFeed) (st : FeedState) (p : ProfileView.Props),
     shouldShowErrorToUser st = true ->
     ProfileView.error p = None ->
     length (ProfileView.sortedComments feed p) = 0%nat ->
     shouldShowErrorToUser (ProfileView.commit feed st p) = true) /\
  (forall s : ProfileView.VotedState,
     shouldShowErrorToUser (ProfileView.v_feed s) = true ->
     ProfileView.v_error s = None -> ProfileView.votedSlice s = [] ->
     shouldShowErrorToUser (ProfileView.v_feed (ProfileView.votedEffects s)) = true).
Proof.
  repeat apply conj.
  - intros st trace p l Hd Hl. unfold AuthorView.run.
    rewrite fold_left_app. cbn [fold_left]. rewrite author_commit_shown, Hd.
    unfold AuthorView.showErrorEffect. destruct l; simpl in *; [lia|].
    by rewrite Bool.andb_false_r.
  - intros feed st trace p Hl. unfold ProfileView.run.
    rewrite fold_left_app. cbn [fold_left]. rewrite profile_commit_shown.
    unfold ProfileView.showErrorEffect.
    destruct (ProfileView.sortedComments feed p); simpl in *; [lia|].
    by rewrite Bool.andb_false_r.
  - intros s ev. unfold ProfileView.votedStep.
    generalize (ProfileView.votedHandle s ev). clear s ev. intros s Hl.
    rewrite voted_effects_shown.
    change (ProfileView.votedSlice (ProfileView.votedEffects s))
      with (ProfileView.votedSlice s) in Hl.
    unfold ProfileView.votedShowErrorEffect.
    destruct (ProfileView.votedSlice s); simpl in *; [lia|].
    by rewrite Bool.andb_false_r.
  - intros st p Hs He Hd. rewrite author_commit_shown, Hs, He, Hd. reflexivity.
  - intros feed st p Hs He Hl. rewrite profile_commit_shown, Hs, He.
    unfold ProfileView.showErrorEffect.
    destruct (ProfileView.sortedComments feed p); [reflexivity | discriminate].
  - intros s Hs He Hl. rewrite voted_effects_shown, Hs, He, Hl. reflexivity.
Qed.

(** Scenario C of the specification, on the [Overview] feed: error with
    no item, then one item with the error still present. *)
Lemma C4_gate_hides_on_content_witness :
  shouldShowErrorToUser
    (ProfileView.run ProfileView.Overview initialFeedState
       ([ProfileView.mkProps (Some (mkError "NetworkError")) [] "new"]
        ++ [ProfileView.mkProps (Some (mkError "NetworkError"))
              [mkComment "Qm1" None 7] "new"]))
  = false.
Proof.
  apply (proj1 (proj2 C4_gate_hides_on_content) ProfileView.Overview).
  simpl. lia.
Defined.

(** ** Sorting *)

Section SortFacts.
Context {A : Type} (cmp : A -> A -> Z).

Lemma insert_perm (x : A) (l : list A) : Js.insert cmp x l ≡ₚ x :: l.
Proof.
  induction l as [|y ys IH]; simpl; [done|].
  destruct (cmp x y <=? 0); [done|].
  rewrite IH. apply Permutation_swap.
Qed.

Lemma sort_perm (l : list A) : Js.sort cmp l ≡ₚ l.
Proof.
  induction l as [|x xs IH]; simpl; [done|].
  by rewrite insert_perm, IH.
Qed.

Lemma sort_length (l : list A) : length (Js.sort cmp l) = length l.
Proof. by rewrite sort_perm. Qed.

(** Elements that the comparator never orders strictly keep their
    input order: the subsequence they form is unchanged. *)
Section Stable.
Variable P : A -> bool.
Hypothesis P_tied : forall a b, P a = true -> P b = true -> cmp a b <= 0.


End Stable.

(** The output is ordered by any transitive relation that follows
    the sign of the comparator. *)
Section Ordered.
Variable R : A -> A -> Prop.
Hypothesis R_le : forall x y, cmp x y <= 0 -> R x y.
Hypothesis R_gt : forall x y, 0 < cmp x y -> R y x.
Hypothesis R_trans : forall x y z, R x y -> R y z -> R x z.

Lemma insert_sorted (x : A) (l : list A) :
  StronglySorted R l -> StronglySorted R (Js.insert cmp x l).
Proof.
  induction 1 as [|y ys Hs IH Hy]; simpl.
  - repeat constructor.
  - destruct (cmp x y <=? 0) eqn:E.
    + apply Z.leb_le in E. constructor; [by constructor|].
      constructor; [by apply R_le|].
      eapply Forall_impl; [exact Hy|]. intros z Hz.
      eapply R_trans; [apply R_le|]; eauto.
    + apply Z.leb_gt in E. constructor; [done|].
      rewrite insert_perm. constructor; [by apply R_gt | done].
Qed.

Lemma sort_sorted (l : list A) : StronglySorted R (Js.sort cmp l).
Proof.
  induction l as [|x xs IH]; simpl; [constructor|].
  by apply insert_sorted.
Qed.
End Ordered.

End SortFacts.

Lemma byTimestamp_new_sorted (l : list Comment) :
  StronglySorted (fun a b => timestamp b <= timestamp a)
    (Js.sort (byTimestamp "new") l).
Proof.
  apply sort_sorted; unfold byTimestamp; simpl; intros; lia.
Qed.

Lemma byTimestamp_old_sorted (sortType : string) (l : list Comment) :
  sortType <> "new" ->
  StronglySorted (fun a b => timestamp a <= timestamp b)
    (Js.sort (byTimestamp sortType) l).
Proof.
  intros H. apply String.eqb_neq in H.
  apply sort_sorted; unfold byTimestamp; rewrite ?H; intros; lia.
Qed.







(** ** Posts and replies *)

Lemma filter_split_perm {A} (f : A -> bool) (l : list A) :
  List.filter f l ++ List.filter (fun x => negb (f x)) l ≡ₚ l.
Proof.
  induction l as [|x xs IH]; simpl; [done|].
  destruct (f x); simpl.
  - by rewrite IH.
  - rewrite <- Permutation_middle. by rewrite IH.
Qed.

Lemma isReply_absent (c : Comment) : parentCid c = None -> isReply c = false.
Proof. unfold isReply. by intros ->. Qed.

Lemma isReply_present (c : Comment) (parent : string) :
  parentCid c = Some parent -> parent <> "" -> isReply c = true.
Proof.
  unfold isReply. intros -> H. simpl.
  by apply Bool.negb_true_iff, String.eqb_neq.
Qed.

Lemma profile_reply_In (accountComments : list Comment) (c : Comment) :
  In c (Profile.replyComments (Some accountComments))
  <-> In c accountComments /\ isReply c = true.
Proof. apply filter_In. Qed.

Lemma profile_post_In (accountComments : list Comment) (c : Comment) :
  In c (Profile.postComments (Some accountComments))
  <-> In c accountComments /\ isReply c = false.
Proof.
  unfold Profile.postComments. rewrite filter_In.
  by rewrite Bool.negb_true_iff.
Qed.

Lemma author_reply_In (l : list (option Comment)) (c : Comment) :
  In (Some c) (Author.replyComments (Some l)) <-> In (Some c) l /\ isReply c = true.
Proof. apply filter_In. Qed.

Lemma author_post_In (l : list (option Comment)) (c : Comment) :
  In (Some c) (Author.postComments (Some l)) <-> In (Some c) l /\ isReply c = false.
Proof.
  unfold Author.postComments. rewrite filter_In.
  by rewrite Bool.negb_true_iff.
Qed.

Lemma sortedComments_In (feed : ProfileView.AccountFeed) (p : ProfileView.Props)
    (c : Comment) :
  In c (ProfileView.sortedComments feed p) <-> In c (ProfileView.filteredComments feed p).
Proof.
  unfold ProfileView.sortedComments. rewrite <- !list_elem_of_In.
  by rewrite sort_perm.
Qed.

Lemma isReply_true_iff (c : Comment) :
  isReply c = true <-> exists parent, parentCid c = Some parent /\ parent <> "".
Proof.
  unfold isReply. destruct (parentCid c) as [parent|]; simpl.
  - rewrite Bool.negb_true_iff, String.eqb_neq. split.
    + intros H. by exists parent.
    + by intros (? & [= <-] & H).
  - split; [done | by intros (? & ? & _)].
Qed.

Lemma isReply_false_iff (c : Comment) :
  isReply c = false <-> parentCid c = None \/ parentCid c = Some "".
Proof.
  unfold isReply. destruct (parentCid c) as [parent|]; simpl.
  - rewrite Bool.negb_false_iff, String.eqb_eq. split.
    + intros ->. by right.
    + by intros [|[= ->]].
  - split; [by left | done].
Qed.

(** C5, the claim as stated fails on a [parentCid] that is present but
    empty: the filters test the truthiness of [parentCid], so a comment
    whose [parentCid] is the empty string is left out of the replies-only
    projection and kept in the posts-only projection, in the profile
    views and in the author view alike. *)
Lemma C5_counterexample :
  let c := mkComment "Qm1" (Some "") 7 in
  parentCid c <> None /\
  ~ In c (Profile.replyComments (Some [c])) /\
  In c (Profile.postComments (Some [c])) /\
  ~ In (Some c) (Author.replyComments (Some [Some c])) /\
  In (Some c) (Author.postComments (Some [Some c])).
Proof.
  simpl. repeat split; try done; auto.
Qed.

(** C5 (amended): whether a comment is a reply is decided by the
    truthiness of its [parentCid] alone: a comment whose [parentCid] is
    a non-empty string is a reply, a comment whose [parentCid] is absent
    or the empty string is a post.  In the profile views and in the
    author view every comment of the raw collection is in exactly one
    of the replies-only and the posts-only projection, the one this test
    selects, and the two projections together hold the same comments as
    the unfiltered projection. *)
Theorem C5_filter_partition :
  (forall c : Comment,
     isReply c = Js.truthy (parentCid c) /\
     (isReply c = true <-> exists parent, parentCid c = Some parent /\ parent <> "") /\
     (isReply c = false <-> parentCid c = None \/ parentCid c = Some "")) /\
  (forall (accountComments : list Comment) (c : Comment),
     (In c (Profile.replyComments (Some accountComments))
      <-> In c accountComments /\ isReply c = true) /\
     (In c (Profile.postComments (Some accountComments))
      <-> In c accountComments /\ isReply c = false) /\
     ~ (In c (Profile.replyComments (Some accountComments)) /\
        In c (Profile.postComments (Some accountComments))) /\
     (In c (Profile.replyComments (Some accountComments)) \/
      In c (Profile.postComments (Some accountComments))
      <-> In c accountComments)) /\
  (forall accountComments : list Comment,
     Profile.replyComments (Some accountComments)
       ++ Profile.postComments (Some accountComments) ≡ₚ accountComments) /\
  (forall (p : ProfileView.Props) (c : Comment),
     ~ (In c (ProfileView.sortedComments ProfileView.Comments p) /\
        In c (ProfileView.sortedComments ProfileView.Submitted p)) /\
     (In c (ProfileView.sortedComments ProfileView.Comments p) \/
      In c (ProfileView.sortedComments ProfileView.Submitted p)
      <-> In c (ProfileView.sortedComments ProfileView.Overview p))) /\
  (forall (authorComments : list (option Comment)) (c : Comment),
     (In (Some c) (Author.replyComments (Some authorComments))
      <-> In (Some c) authorComments /\ isReply c = true) /\
     (In (Some c) (Author.postComments (Some authorComments))
      <-> In (Some c) authorComments /\ isReply c = false) /\
     ~ (In (Some c) (Author.replyComments (Some authorComments)) /\
        In (Some c) (Author.postComments (Some authorComments))) /\
     (In (Some c) (Author.replyComments (Some authorComments)) \/
      In (Some c) (Author.postComments (Some authorComments))
      <-> In (Some c) authorComments)).
Proof.
  split; [|split; [|split; [|split]]].
  - intros c. split; [reflexivity|]. split.
    + apply isReply_true_iff.
    + apply isReply_false_iff.
  - intros accountComments c.
    pose proof (profile_reply_In accountComments c) as Hr.
    pose proof (profile_post_In accountComments c) as Hp.
    split; [exact Hr|]. split; [exact Hp|].
    rewrite Hr, Hp. destruct (isReply c); split; (tauto || intuition congruence).
  - intros accountComments. apply filter_split_perm.
  - intros p c. rewrite !sortedComments_In.
    cbn [ProfileView.filteredComments].
    rewrite profile_reply_In, profile_post_In.
    destruct (isReply c); split; (tauto || intuition congruence).
  - intros authorComments c.
    pose proof (author_reply_In authorComments c) as Hr.
    pose proof (author_post_In authorComments c) as Hp.
    split; [exact Hr|]. split; [exact Hp|].
    rewrite Hr, Hp. destruct (isReply c); split; (tauto || intuition congruence).
Qed.

(** C5 (amended) on an account with one post and one reply to it: the
    reply is in the replies-only projection. *)
Lemma C5_filter_partition_witness :
  In (mkComment "Qm2" (Some "Qm1") 9)
    (Profile.replyComments
       (Some [mkComment "Qm1" None 7; mkComment "Qm2" (Some "Qm1") 9])).
Proof.
  apply (proj2 (proj1 (proj1 (proj2 C5_filter_partition)
                         [mkComment "Qm1" None 7; mkComment "Qm2" (Some "Qm1") 9]
                         (mkComment "Qm2" (Some "Qm1") 9)))).
  split; [right; left; reflexivity | reflexivity].
Defined.

(** ** The snapshot store *)

Lemma hasRanges_nonDegenerate (s : StateSnapshot) :
  SnapshotStore.hasRanges (Some s) = true <-> SnapshotStore.nonDegenerate s.
Proof.
  unfold SnapshotStore.hasRanges, SnapshotStore.nonDegenerate.
  destruct (ranges s) as [[|r rs]|]; simpl; split; try done.
  - intros (r & [= <-] & H). done.
  - intros _. by exists (r :: rs).
  - intros (r & ? & _). done.
Qed.

Lemma setLastVirtuosoState_saved (key : string) (snapshot : StateSnapshot)
    (store : gmap string StateSnapshot) :
  SnapshotStore.hasRanges (Some snapshot) = true ->
  SnapshotStore.setLastVirtuosoState key (Some (Some snapshot)) store !! key
  = Some snapshot.
Proof.
  intros H. unfold SnapshotStore.setLastVirtuosoState. rewrite H.
  apply lookup_insert_eq.
Qed.

Lemma onScroll_degenerate (store : gmap string StateSnapshot)
    (ev : SnapshotStore.Scroll) :
  SnapshotStore.hasRanges (SnapshotStore.received ev) = false ->
  SnapshotStore.onScroll store ev = store.
Proof.
  unfold SnapshotStore.onScroll, SnapshotStore.setLastVirtuosoState,
    SnapshotStore.received.
  destruct (SnapshotStore.scrollRef ev) as [[s|]|]; try done.
  by intros ->.
Qed.

Lemma onScroll_lookup (store : gmap string StateSnapshot)
    (ev : SnapshotStore.Scroll) (key : string) (s : StateSnapshot) :
  SnapshotStore.load key (SnapshotStore.onScroll store ev) = Some s ->
  SnapshotStore.load key store = Some s
  \/ (SnapshotStore.scrollKey ev = key /\ SnapshotStore.received ev = Some s
      /\ SnapshotStore.nonDegenerate s).
Proof.
  unfold SnapshotStore.onScroll, SnapshotStore.setLastVirtuosoState,
    SnapshotStore.received, SnapshotStore.load.
  destruct (SnapshotStore.scrollRef ev) as [[s'|]|]; try (by left).
  destruct (SnapshotStore.hasRanges (Some s')) eqn:E; [|by left].
  destruct (decide (SnapshotStore.scrollKey ev = key)) as [->|Hne].
  - rewrite lookup_insert_eq. intros [= <-]. right.
    by rewrite <- hasRanges_nonDegenerate.
  - rewrite lookup_insert_ne by done. by left.
Qed.

Lemma scrolls_lookup (evs : list SnapshotStore.Scroll)
    (store : gmap string StateSnapshot) (key : string) (s : StateSnapshot) :
  SnapshotStore.load key (SnapshotStore.scrolls store evs) = Some s ->
  SnapshotStore.load key store = Some s
  \/ (SnapshotStore.nonDegenerate s
      /\ exists ev, In ev evs /\ SnapshotStore.scrollKey ev = key
                    /\ SnapshotStore.received ev = Some s).
Proof.
  revert store. induction evs as [|ev evs IH]; intros store; simpl; [by left|].
  intros H. destruct (IH _ H) as [H1|(Hnd & ev' & Hin & Hk & Hr)].
  - destruct (onScroll_lookup _ _ _ _ H1) as [H2|(Hk & Hr & Hnd)]; [by left|].
    right. split; [done|]. exists ev. by repeat split; [left|..].
  - right. split; [done|]. exists ev'. by repeat split; [right|..].
Qed.

Lemma scrolls_keep (evs : list SnapshotStore.Scroll)
    (store : gmap string StateSnapshot) (key : string) :
  Forall (fun ev => SnapshotStore.scrollKey ev = key ->
                    SnapshotStore.hasRanges (SnapshotStore.received ev) = false) evs ->
  SnapshotStore.load key (SnapshotStore.scrolls store evs)
  = SnapshotStore.load key store.
Proof.
  intros H. revert store. induction H as [|ev evs Hev _ IH]; intros store; [done|].
  simpl. rewrite IH.
  destruct (decide (SnapshotStore.scrollKey ev = key)) as [Hk|Hne].
  - by rewrite onScroll_degenerate by auto.
  - unfold SnapshotStore.onScroll, SnapshotStore.setLastVirtuosoState,
      SnapshotStore.load.
    destruct (SnapshotStore.scrollRef ev) as [[s'|]|]; try done.
    destruct (SnapshotStore.hasRanges (Some s')); [|done].
    by rewrite lookup_insert_ne.
Qed.

(** C7: a scroll event whose snapshot has no visible range (or no
    snapshot at all) leaves the store as it is; after any sequence of
    scroll events every entry of the store is either the entry that was
    there before or a snapshot with a non-empty range list delivered by
    one of the events for that key; and an entry is still there, the
    same, after any number of scroll events for its key with an empty
    range list. *)
Theorem C7_snapshot_non_degenerate :
  (forall (store : gmap string StateSnapshot) (ev : SnapshotStore.Scroll),
     SnapshotStore.hasRanges (SnapshotStore.received ev) = false ->
     SnapshotStore.onScroll store ev = store) /\
  (forall (store : gmap string StateSnapshot) (evs : list SnapshotStore.Scroll)
          (key : string) (s : StateSnapshot),
     SnapshotStore.load key (SnapshotStore.scrolls store evs) = Some s ->
     SnapshotStore.load key store = Some s
     \/ (SnapshotStore.nonDegenerate s
         /\ exists ev, In ev evs /\ SnapshotStore.scrollKey ev = key
                       /\ SnapshotStore.received ev = Some s)) /\
  (forall (evs : list SnapshotStore.Scroll) (key : string) (s : StateSnapshot),
     SnapshotStore.load key (SnapshotStore.scrolls ∅ evs) = Some s ->
     SnapshotStore.nonDegenerate s) /\
  (forall (store : gmap string StateSnapshot) (evs : list SnapshotStore.Scroll)
          (key : string),
     Forall (fun ev => SnapshotStore.scrollKey ev = key ->
                       SnapshotStore.hasRanges (SnapshotStore.received ev) = false) evs ->
     SnapshotStore.load key (SnapshotStore.scrolls store evs)
     = SnapshotStore.load key store).
Proof.
  split; [|split; [|split]].
  - apply onScroll_degenerate.
  - intros store evs key s. apply scrolls_lookup.
  - intros evs key s H. apply scrolls_lookup in H as [H|[H _]]; [|done].
    unfold SnapshotStore.load in H. by rewrite lookup_empty in H.
  - intros store evs key. apply scrolls_keep.
Qed.

(** C7 on one useful snapshot followed by a scroll event that reports
    an empty range list for the same key. *)
Lemma C7_snapshot_non_degenerate_witness :
  SnapshotStore.load "u1new"
    (SnapshotStore.scrolls
       {[ "u1new" := mkSnapshot (Some [mkRange 0 4 120]) 300 ]}
       [SnapshotStore.mkScroll "u1new" (Some (Some (mkSnapshot (Some []) 0)))])
  = Some (mkSnapshot (Some [mkRange 0 4 120]) 300).
Proof.
  rewrite (proj2 (proj2 (proj2 C7_snapshot_non_degenerate))).
  - reflexivity.
  - repeat constructor.
Defined.

(** C10: the key is the plain concatenation of the subject and the
    sort type, so distinct (subject, sort type) pairs can share a key
    in both views, and a snapshot saved under one of them is what the
    other one loads. *)
Theorem C10_snapshot_key_collision :
  (forall authorAddress sortType : option string,
     AuthorView.snapshotKey authorAddress sortType
     = Js.nullish authorAddress "" +:+ Js.nullish sortType "") /\
  ((Some "anew", @None string) <> (Some "a", Some "new") /\
   AuthorView.snapshotKey (Some "anew") None
   = AuthorView.snapshotKey (Some "a") (Some "new")) /\
  ((Some "ab", Some "c") <> (Some "a", Some "bc") /\
   AuthorView.snapshotKey (Some "ab") (Some "c")
   = AuthorView.snapshotKey (Some "a") (Some "bc")) /\
  ((Some "12D3n", Some "ew") <> (Some "12D3", Some "new") /\
   ProfileView.snapshotKey (Some (mkAccount (Some "12D3n") None)) (Some "ew")
   = ProfileView.snapshotKey (Some (mkAccount (Some "12D3") None)) (Some "new")) /\
  (forall (store : gmap string StateSnapshot) (first second : StateSnapshot),
     SnapshotStore.hasRanges (Some second) = true ->
     SnapshotStore.load (AuthorView.snapshotKey (Some "anew") None)
       (SnapshotStore.scrolls store
          [SnapshotStore.mkScroll (AuthorView.snapshotKey (Some "anew") None)
             (Some (Some first));
           SnapshotStore.mkScroll (AuthorView.snapshotKey (Some "a") (Some "new"))
             (Some (Some second))])
     = Some second).
Proof.
  split; [reflexivity|].
  split; [split; [discriminate | reflexivity]|].
  split; [split; [discriminate | reflexivity]|].
  split; [split; [discriminate | reflexivity]|].
  intros store first second H.
  change (AuthorView.snapshotKey (Some "a") (Some "new")) with "anew".
  change (AuthorView.snapshotKey (Some "anew") None) with "anew".
  unfold SnapshotStore.scrolls, SnapshotStore.load.
  cbn [fold_left]. unfold SnapshotStore.onScroll at 1.
  cbn [SnapshotStore.scrollKey SnapshotStore.scrollRef].
  apply setLastVirtuosoState_saved, H.
Qed.

(** C10: the snapshot of the subject "a" sorted by "new" replaces the
    one of the subject "anew". *)
Lemma C10_snapshot_key_collision_witness :
  SnapshotStore.load (AuthorView.snapshotKey (Some "anew") None)
    (SnapshotStore.scrolls ∅
       [SnapshotStore.mkScroll (AuthorView.snapshotKey (Some "anew") None)
          (Some (Some (mkSnapshot (Some [mkRange 0 4 120]) 300)));
        SnapshotStore.mkScroll (AuthorView.snapshotKey (Some "a") (Some "new"))
          (Some (Some (mkSnapshot (Some [mkRange 7 9 80]) 900)))])
  = Some (mkSnapshot (Some [mkRange 7 9 80]) 900).
Proof.
  apply (proj2 (proj2 (proj2 (proj2 C10_snapshot_key_collision)))).
  reflexivity.
Defined.

(** ** Footer and empty state *)

Lemma slice_empty_prefix (account : option Account) (pageIndex : Z) :
  1 <= pageIndex ->
  Profile.hiddenCommentCids account pageIndex = [] ->
  Profile.hiddenHasMore account pageIndex = false.
Proof.
  intros Hp Hnil.
  apply Bool.not_true_iff_false. rewrite hiddenHasMore_spec by lia.
  unfold spec_hasMore, pageSize.
  assert (Z.of_nat (length (Profile.hiddenCommentCids account pageIndex)) = 0) as Hlen
    by (by rewrite Hnil).
  rewrite hiddenCommentCids_prefix in Hlen by done.
  rewrite length_take in Hlen. unfold pageSize in Hlen. lia.
Qed.

(** C8, the claim as stated fails on the client-paged feeds: with
    eleven upvotes the first page of the upvoted feed has [hasMore]
    true, and what is displayed is a "next" control, not a "loading
    more" indicator. *)
Lemma C8_counterexample :
  let s := ProfileView.votedRun 1
             [ProfileView.HookUpdate None (Some elevenUpvotes)] in
  ProfileView.votedMore s = true /\
  loadingFooter (ProfileView.votedRender s) = false /\
  nextButton (ProfileView.votedRender s) = true.
Proof. repeat split; reflexivity. Qed.

(** C8 (amended): the author feed displays the "loading more" footer
    iff [hasMore] is true and "nothing found" iff its projection is
    defined, has no item and [hasMore] is false.  The profile feeds
    display no "loading more" footer.  The overview, comments and
    submitted feeds display "nothing found" iff their projection has no
    item.  The voted and hidden feeds display a "next" control iff
    [hasMore] is true and, on a page [>= 1], "nothing found" iff the
    visible slice is empty, in which case [hasMore] is false. *)
Theorem C8_footer_and_empty_state :
  (forall (st : FeedState) (p : AuthorView.Props),
     loadingFooter (AuthorView.render st p) = AuthorView.hasMore p /\
     (nothingFound (AuthorView.render st p) = true
      <-> AuthorView.data p = Some [] /\ AuthorView.hasMore p = false)) /\
  (forall (feed : ProfileView.AccountFeed) (st : FeedState) (p : ProfileView.Props),
     loadingFooter (ProfileView.render feed st p) = false /\
     (nothingFound (ProfileView.render feed st p) = true
      <-> length (ProfileView.sortedComments feed p) = 0%nat)) /\
  (forall s : ProfileView.VotedState,
     1 <= ProfileView.v_currentPage s ->
     loadingFooter (ProfileView.votedRender s) = false /\
     nextButton (ProfileView.votedRender s) = ProfileView.votedMore s /\
     (nothingFound (ProfileView.votedRender s) = true
      <-> length (ProfileView.votedSlice s) = 0%nat) /\
     (nothingFound (ProfileView.votedRender s) = true
      <-> length (ProfileView.votedSlice s) = 0%nat
          /\ ProfileView.votedMore s = false)) /\
  (forall (account : option Account) (currentPage : Z),
     1 <= currentPage ->
     loadingFooter (ProfileView.hiddenRender account currentPage) = false /\
     nextButton (ProfileView.hiddenRender account currentPage)
     = Profile.hiddenHasMore account currentPage /\
     (nothingFound (ProfileView.hiddenRender account currentPage) = true
      <-> length (Profile.hiddenCommentCids account currentPage) = 0%nat) /\
     (nothingFound (ProfileView.hiddenRender account currentPage) = true
      <-> length (Profile.hiddenCommentCids account currentPage) = 0%nat
          /\ Profile.hiddenHasMore account currentPage = false)).
Proof.
  split; [|split; [|split]].
  - intros st p. split; [reflexivity|]. simpl.
    rewrite Bool.andb_true_iff, Bool.negb_true_iff, lengthIsZero_spec. tauto.
  - intros feed st p. split; [reflexivity|]. simpl. apply Nat.eqb_eq.
  - intros s Hp. split; [reflexivity|]. split.
    { simpl. unfold paginationNext. by destruct (ProfileView.votedMore s), (_ >? 1). }
    assert (nothingFound (ProfileView.votedRender s) = true
            <-> length (ProfileView.votedSlice s) = 0%nat) as Hnf
      by (simpl; apply Nat.eqb_eq).
    split; [exact Hnf|]. rewrite Hnf. split; [|tauto].
    intros H. split; [done|].
    apply length_zero_iff_nil in H.
    by apply paginatedCids_empty_no_more.
  - intros account page Hp. split; [reflexivity|]. split.
    { simpl. unfold paginationNext.
      by destruct (Profile.hiddenHasMore account page), (_ >? 1). }
    assert (nothingFound (ProfileView.hiddenRender account page) = true
            <-> length (Profile.hiddenCommentCids account page) = 0%nat) as Hnf
      by (simpl; apply Nat.eqb_eq).
    split; [exact Hnf|]. rewrite Hnf. split; [|tauto].
    intros H. split; [done|].
    apply length_zero_iff_nil in H.
    by apply slice_empty_prefix.
Qed.

(** C8 (amended) on the first page of the upvoted feed with eleven
    upvotes. *)
Lemma C8_footer_and_empty_state_witness :
  nextButton
    (ProfileView.votedRender
       (ProfileView.votedRun 1 [ProfileView.HookUpdate None (Some elevenUpvotes)]))
  = ProfileView.votedMore
      (ProfileView.votedRun 1 [ProfileView.HookUpdate None (Some elevenUpvotes)]).
Proof.
  apply (proj1 (proj2 (proj2 C8_footer_and_empty_state))
           (ProfileView.votedRun 1
              [ProfileView.HookUpdate None (Some elevenUpvotes)])).
  simpl. lia.
Defined.

(** ** Logging of errors *)

Lemma noRepeat_snoc (l : list ErrorInfo) (e : ErrorInfo) :
  noRepeat l -> message <$> last l <> Some (message e) -> noRepeat (l ++ [e]).
Proof.
  intros Hl Hlast i a b Ha Hb.
  destruct (decide (S i < length l)%nat) as [Hlt|Hge].
  - rewrite lookup_app_l in Ha by lia. rewrite lookup_app_l in Hb by lia.
    by apply (Hl i).
  - assert (S i = length l) as Hi.
    { apply lookup_lt_Some in Hb. rewrite length_app in Hb. simpl in Hb. lia. }
    rewrite lookup_app_l in Ha by lia.
    rewrite lookup_app_r in Hb by lia.
    rewrite Hi, Nat.sub_diag in Hb. injection Hb as <-.
    intros Heq. apply Hlast.
    rewrite last_lookup, <- Hi. simpl. rewrite Ha. simpl. by rewrite Heq.
Qed.

Lemma logInv_initial : logInv initialFeedState.
Proof. split; [done|]. intros i a b H. simpl in H. by rewrite lookup_nil in H. Qed.

Lemma logEffect_inv (error : option ErrorInfo) (st : FeedState) :
  logInv st -> logInv (logEffect error st).
Proof.
  intros [Hprev Hrep]. unfold logEffect. destruct error as [e|]; [|done].
  destruct (decide _) as [Heq|Hne]; [done|].
  split; simpl.
  - by rewrite last_snoc.
  - apply noRepeat_snoc; [done|]. by rewrite <- Hprev.
Qed.

Lemma setShouldShowErrorToUser_inv (b : bool) (st : FeedState) :
  logInv st -> logInv (setShouldShowErrorToUser b st).
Proof. done. Qed.

Lemma author_run_inv (trace : list AuthorView.Props) (st : FeedState) :
  logInv st -> logInv (AuthorView.run st trace).
Proof.
  revert st. induction trace as [|p trace IH]; intros st H; [done|].
  apply IH. by apply setShouldShowErrorToUser_inv, logEffect_inv.
Qed.

Lemma profile_run_inv (feed : ProfileView.AccountFeed)
    (trace : list ProfileView.Props) (st : FeedState) :
  logInv st -> logInv (ProfileView.run feed st trace).
Proof.
  revert st. induction trace as [|p trace IH]; intros st H; [done|].
  apply IH. by apply setShouldShowErrorToUser_inv, logEffect_inv.
Qed.

Lemma voted_run_inv (voteType : Z) (trace : list ProfileView.VotedEvent) :
  logInv (ProfileView.v_feed (ProfileView.votedRun voteType trace)).
Proof.
  unfold ProfileView.votedRun.
  assert (forall s, logInv (ProfileView.v_feed s) ->
                    logInv (ProfileView.v_feed (ProfileView.votedEffects s))) as He.
  { intros s H. by apply setShouldShowErrorToUser_inv, logEffect_inv. }
  assert (forall s ev, logInv (ProfileView.v_feed s) ->
                       logInv (ProfileView.v_feed (ProfileView.votedHandle s ev))) as Hh.
  { intros s [e v|vt|i| |] H; simpl; try done.
    - by destruct (sortTypes !! i).
    - by destruct (paginationPrevious _ _).
    - by destruct (paginationNext _ _). }
  assert (logInv (ProfileView.v_feed
                    (ProfileView.votedEffects (ProfileView.votedInitial voteType)))) as H0
    by (apply He, logInv_initial).
  revert H0. generalize (ProfileView.votedEffects (ProfileView.votedInitial voteType)).
  induction trace as [|ev trace IH]; intros s Hs; [done|].
  apply IH, He, Hh, Hs.
Qed.

(** C9, the claim as stated fails: the ref cell remembers only the last
    logged message, so a message that comes back after another one is
    logged a second time. *)
Lemma C9_counterexample :
  let props := fun e => AuthorView.mkProps (Some e) (Some []) false false false in
  let st := AuthorView.run initialFeedState [props errorA; props errorB; props errorA] in
  console st = [errorA; errorB; errorA] /\
  length (List.filter (fun e => String.eqb (message e) (message errorA)) (console st))
  = 2%nat.
Proof. split; reflexivity. Qed.

(** C9 (amended): in every feed, an incoming error is logged exactly
    when its message differs from the message of the last logged error
    (or nothing was logged yet); an absent error logs nothing.  Hence the
    ref cell always holds the message of the last console entry and no
    two consecutive console entries carry the same message. *)
Theorem C9_log_on_message_change :
  (forall trace : list AuthorView.Props,
     logInv (AuthorView.run initialFeedState trace)) /\
  (forall (feed : ProfileView.AccountFeed) (trace : list ProfileView.Props),
     logInv (ProfileView.run feed initialFeedState trace)) /\
  (forall (voteType : Z) (trace : list ProfileView.VotedEvent),
     logInv (ProfileView.v_feed (ProfileView.votedRun voteType trace))) /\
  (forall (st : FeedState) (e : ErrorInfo),
     logInv st ->
     console (logEffect (Some e) st)
     = if decide (message <$> last (console st) = Some (message e))
       then console st else (console st ++ [e])%list) /\
  (forall st : FeedState, logEffect None st = st).
Proof.
  split; [|split; [|split; [|split]]].
  - intros trace. apply author_run_inv, logInv_initial.
  - intros feed trace. apply profile_run_inv, logInv_initial.
  - apply voted_run_inv.
  - intros st e [Hprev _]. unfold logEffect. rewrite Hprev.
    destruct (decide (Some (message e) = _)) as [H|H];
      destruct (decide (_ = Some (message e))) as [H'|H']; simpl; congruence.
  - reflexivity.
Qed.

(** C9 (amended) on a feed that has logged [errorA] and receives it
    again. *)
Lemma C9_log_on_message_change_witness :
  console
    (logEffect (Some errorA)
       (AuthorView.run initialFeedState
          [AuthorView.mkProps (Some errorA) None false false false]))
  = [errorA].
Proof.
  rewrite (proj1 (proj2 (proj2 (proj2 C9_log_on_message_change)))).
  - reflexivity.
  - apply (proj1 C9_log_on_message_change).
Defined.

(** ** Keys of the listed sort types *)

Lemma append_length (a s : string) :
  String.length (a +:+ s) = (String.length a + String.length s)%nat.
Proof. induction a as [|c a IH]; simpl; [done | by rewrite IH]. Qed.

Lemma append_same_length_inj (a1 a2 s1 s2 : string) :
  String.length a1 = String.length a2 ->
  a1 +:+ s1 = a2 +:+ s2 -> a1 = a2 /\ s1 = s2.
Proof.
  revert a2. induction a1 as [|c a1 IH]; intros [|c' a2]; simpl; try done.
  intros [= Hlen] [= <- Heq]. destruct (IH _ Hlen Heq) as [-> ->]. done.
Qed.

(** The collisions need a sort type that is absent or not one of
    [sortTypes]: when both sort types are listed ones, equal keys of the
    author view come from the same subject string and sort type. *)
Lemma author_snapshotKey_listed_inj (a1 a2 : option string) (s1 s2 : string) :
  In s1 sortTypes -> In s2 sortTypes ->
  AuthorView.snapshotKey a1 (Some s1) = AuthorView.snapshotKey a2 (Some s2) ->
  Js.nullish a1 "" = Js.nullish a2 "" /\ s1 = s2.
Proof.
  unfold AuthorView.snapshotKey. simpl Js.nullish at 2 4.
  intros H1 H2 Heq.
  assert (String.length s1 = 3%nat /\ String.length s2 = 3%nat) as [L1 L2].
  { simpl in H1, H2.
    destruct H1 as [<-|[<-|[]]]; destruct H2 as [<-|[<-|[]]]; done. }
  apply append_same_length_inj; [|done].
  apply (f_equal String.length) in Heq. rewrite !append_length in Heq. lia.
Qed.

(** * Further properties of the views *)

(** ** Pages of the voted feeds *)

Lemma paginatedCids_take_drop (sequence : list string) (n : nat) :
  Profile.paginatedCids sequence (Z.of_nat (S n))
  = take 10 (drop (n * 10) sequence).
Proof.
  rewrite paginatedCids_spec by lia. unfold spec_visibleSlice, pageSize.
  do 2 f_equal. lia.
Qed.

Lemma concat_pages (sequence : list string) (n : nat) :
  concat (map (Profile.paginatedCids sequence) (pagesUpTo n))
  = take (n * 10) sequence.
Proof.
  unfold pagesUpTo. induction n as [|n IH]; [done|].
  rewrite seq_S, !map_app, concat_app, IH. simpl.
  rewrite paginatedCids_take_drop, app_nil_r, take_take_drop.
  f_equal. lia.
Qed.

(** Every identifier of the sequence is displayed on exactly the page
    its index selects, at the position its index selects, and every
    page before that one offers the "next" control. *)
Theorem voted_page_of_index (sequence : list string) (i : nat) (cid : string) :
  sequence !! i = Some cid ->
  Profile.paginatedCids sequence (Z.of_nat (S (i / 10))) !! (i mod 10)%nat = Some cid /\
  (forall page : Z, 1 <= page < Z.of_nat (S (i / 10)) ->
     Profile.votedHasMore sequence page = true /\
     paginationNext page (Profile.votedHasMore sequence page) = true).
Proof.
  intros Hi. pose proof (lookup_lt_Some _ _ _ Hi) as Hlt.
  pose proof (Nat.div_mod_eq i 10) as Hdm.
  pose proof (Nat.mod_upper_bound i 10 ltac:(lia)) as Hm.
  split.
  - rewrite paginatedCids_take_drop, lookup_take_lt, lookup_drop by lia.
    rewrite <- Hi. f_equal. lia.
  - intros page Hp.
    assert (Profile.votedHasMore sequence page = true) as ->.
    { unfold Profile.votedHasMore, pageSize. apply Z.ltb_lt. nia. }
    split; [done|]. unfold paginationNext. by rewrite Bool.andb_true_r.
Qed.

Lemma voted_page_of_index_witness :
  Profile.paginatedCids (Profile.allHiddenCids (Some hidden25)) 3 !! 2%nat
  = Some "W".
Proof.
  apply (proj1 (voted_page_of_index (Profile.allHiddenCids (Some hidden25)) 22 "W"
                  ltac:(reflexivity))).
Defined.

(** The pages [1 .. n] of the voted feed, one after the other, are the
    first [n * 10] identifiers: no identifier is skipped or repeated
    between pages, and what the hidden feed shows on page [n] is the
    concatenation of the pages [1 .. n] of a voted-style feed over the
    same identifiers. *)
Theorem pages_concat_prefix :
  (forall (sequence : list string) (n : nat),
     concat (map (Profile.paginatedCids sequence) (pagesUpTo n))
     = take (n * 10) sequence) /\
  (forall (sequence : list string) (n : nat),
     (length sequence <= n * 10)%nat ->
     concat (map (Profile.paginatedCids sequence) (pagesUpTo n)) = sequence) /\
  (forall (account : option Account) (n : nat),
     (1 <= n)%nat ->
     Profile.hiddenCommentCids account (Z.of_nat n)
     = concat (map (Profile.paginatedCids (Profile.allHiddenCids account))
                 (pagesUpTo n))).
Proof.
  split; [|split].
  - apply concat_pages.
  - intros sequence n H. rewrite concat_pages. by apply take_ge.
  - intros account n Hn. rewrite concat_pages.
    rewrite hiddenCommentCids_prefix by lia.
    f_equal. unfold pageSize. lia.
Qed.

Lemma pages_concat_prefix_witness :
  concat (map (Profile.paginatedCids (Profile.allHiddenCids (Some hidden25)))
            (pagesUpTo 3))
  = Profile.allHiddenCids (Some hidden25).
Proof.
  apply (proj1 (proj2 pages_concat_prefix)). simpl. lia.
Defined.

Lemma paginatedCids_length_le (sequence : list string) (page : Z) :
  1 <= page ->
  Z.of_nat (length (Profile.paginatedCids sequence page)) <= pageSize.
Proof.
  intros Hp. unfold Profile.paginatedCids, pageSize.
  rewrite slice_length_window by lia. lia.
Qed.

(** A page of the voted feed never holds more than [pageSize]
    identifiers, and holds exactly [pageSize] whenever [hasMore] is
    true; so does the list of rendered [CommentItem]s. *)
Theorem voted_page_size :
  forall (sequence : list string) (page : Z),
    1 <= page ->
    (Z.of_nat (length (Profile.paginatedCids sequence page)) <= pageSize) /\
    (Profile.votedHasMore sequence page = true ->
     Z.of_nat (length (Profile.paginatedCids sequence page)) = pageSize) /\
    (Profile.votedHasMore sequence page = false ->
     Z.of_nat (length (Profile.paginatedCids sequence page))
     = Z.max 0 (Z.of_nat (length sequence) - (page - 1) * pageSize)).
Proof.
  intros sequence page Hp.
  unfold Profile.paginatedCids, Profile.votedHasMore, pageSize.
  rewrite slice_length_window by lia.
  split; [lia|]. split; intros H; [apply Z.ltb_lt in H | apply Z.ltb_ge in H]; lia.
Qed.

Lemma voted_page_size_witness :
  Z.of_nat (length (Profile.paginatedCids (map commentCid elevenUpvotes) 1)) = pageSize.
Proof.
  apply (proj1 (proj2 (voted_page_size (map commentCid elevenUpvotes) 1 ltac:(lia)))).
  reflexivity.
Defined.

(** A click on a rendered "next" control of the voted feed leads to a
    page that shows at least one identifier. *)
Theorem voted_next_not_empty (s : ProfileView.VotedState) :
  1 <= ProfileView.v_currentPage s ->
  nextButton (ProfileView.votedRender s) = true ->
  ProfileView.v_currentPage (ProfileView.votedHandle s ProfileView.ClickNext)
  = ProfileView.v_currentPage s + 1 /\
  ProfileView.votedSlice (ProfileView.votedHandle s ProfileView.ClickNext) <> [].
Proof.
  intros Hp Hn. simpl in Hn. cbn [ProfileView.votedHandle]. rewrite Hn.
  split; [done|].
  unfold paginationNext in Hn. apply Bool.andb_true_iff in Hn as [_ Hm].
  unfold ProfileView.votedMore, Profile.votedHasMore, pageSize in Hm.
  apply Z.ltb_lt in Hm.
  intros Hnil. apply (f_equal length) in Hnil.
  apply (f_equal Z.of_nat) in Hnil. revert Hnil.
  unfold ProfileView.votedSlice, Profile.paginatedCids, pageSize.
  change (ProfileView.votedCids (ProfileView.setPage _ s))
    with (ProfileView.votedCids s).
  cbn [ProfileView.setPage ProfileView.v_currentPage].
  rewrite slice_length_window by lia. simpl. lia.
Qed.

Lemma voted_next_not_empty_witness :
  ProfileView.votedSlice
    (ProfileView.votedHandle
       (ProfileView.votedRun 1 [ProfileView.HookUpdate None (Some elevenUpvotes)])
       ProfileView.ClickNext)
  <> [].
Proof.
  apply (voted_next_not_empty
           (ProfileView.votedRun 1 [ProfileView.HookUpdate None (Some elevenUpvotes)])).
  - simpl. lia.
  - reflexivity.
Defined.

(** ** The hidden feed *)

Lemma hiddenCommentCids_length (account : option Account) (page : Z) :
  1 <= page ->
  Z.of_nat (length (Profile.hiddenCommentCids account page))
  = Z.min (page * pageSize) (Z.of_nat (length (Profile.allHiddenCids account))).
Proof.
  intros Hp. rewrite hiddenCommentCids_prefix by lia.
  rewrite length_take. unfold pageSize. lia.
Qed.

(** On a page [>= 1] the hidden feed shows the first
    [min (page * 10) total] hidden identifiers; what a page shows is a
    prefix of what the next page shows; and when [hasMore] is false,
    every hidden identifier is shown. *)
Theorem hidden_pages_accumulate :
  forall (account : option Account) (page : Z),
    1 <= page ->
    Z.of_nat (length (Profile.hiddenCommentCids account page))
    = Z.min (page * pageSize) (Z.of_nat (length (Profile.allHiddenCids account))) /\
    Profile.hiddenCommentCids account page
      `prefix_of` Profile.hiddenCommentCids account (page + 1) /\
    (Profile.hiddenHasMore account page = false ->
     Profile.hiddenCommentCids account page = Profile.allHiddenCids account).
Proof.
  intros account page Hp. rewrite !hiddenCommentCids_prefix by lia.
  split; [|split].
  - rewrite length_take. unfold pageSize. lia.
  - replace (Z.to_nat ((page + 1) * pageSize))
      with (Z.to_nat (page * pageSize) + Z.to_nat pageSize)%nat
      by (unfold pageSize; lia).
    rewrite <- take_take_drop. by eexists.
  - intros H. apply Bool.not_true_iff_false in H.
    rewrite hiddenHasMore_spec in H by lia.
    unfold spec_hasMore in H. apply take_ge. unfold pageSize in *. lia.
Qed.

Lemma hidden_pages_accumulate_witness :
  Profile.hiddenCommentCids (Some hidden25) 3 = Profile.allHiddenCids (Some hidden25).
Proof.
  apply (proj2 (proj2 (hidden_pages_accumulate (Some hidden25) 3 ltac:(lia)))).
  reflexivity.
Defined.

Lemma hidden_run_page (account : option Account) (trace : list HiddenView.Event) :
  1 <= HiddenView.h_currentPage (HiddenView.run account trace).
Proof.
  unfold HiddenView.run.
  assert (1 <= HiddenView.h_currentPage (HiddenView.initial account)) as H0
    by (simpl; lia).
  revert H0. generalize (HiddenView.initial account).
  induction trace as [|ev trace IH]; intros s Hs; [done|].
  apply IH. destruct ev as [a| |]; simpl; [done| |].
  - unfold paginationPrevious.
    destruct (_ || _); simpl; [|done].
    destruct (_ >? 1) eqn:E; simpl; lia.
  - destruct (paginationNext _ _); simpl; lia.
Qed.

(** In a mounted [HiddenComments] the page index stays [>= 1] under
    every sequence of account updates and clicks.  A click on a
    rendered "next" control shows strictly more identifiers, and a
    click on a rendered "previous" control shows a prefix of what was
    shown before. *)
Theorem hidden_page_controls :
  (forall (account : option Account) (trace : list HiddenView.Event),
     1 <= HiddenView.h_currentPage (HiddenView.run account trace)) /\
  (forall s : HiddenView.State,
     1 <= HiddenView.h_currentPage s ->
     paginationNext (HiddenView.h_currentPage s) (HiddenView.more s) = true ->
     (length (HiddenView.shown s)
      < length (HiddenView.shown (HiddenView.handle s HiddenView.ClickNext)))%nat) /\
  (forall s : HiddenView.State,
     paginationPrevious (HiddenView.h_currentPage s) (HiddenView.more s) = true ->
     HiddenView.shown (HiddenView.handle s HiddenView.ClickPrevious)
       `prefix_of` HiddenView.shown s).
Proof.
  split; [|split].
  - apply hidden_run_page.
  - intros s Hp Hn. cbn [HiddenView.handle]. rewrite Hn.
    unfold paginationNext in Hn. apply Bool.andb_true_iff in Hn as [_ Hm].
    unfold HiddenView.more in Hm. rewrite hiddenHasMore_spec in Hm by lia.
    unfold spec_hasMore, pageSize in Hm.
    unfold HiddenView.shown. cbn [HiddenView.h_account HiddenView.h_currentPage].
    apply Nat2Z.inj_lt.
    rewrite !hiddenCommentCids_length by lia.
    unfold pageSize. lia.
  - intros s Hprev. cbn [HiddenView.handle]. rewrite Hprev.
    unfold paginationPrevious in Hprev.
    apply Bool.andb_true_iff in Hprev as [_ Hp]. apply Z.gtb_lt in Hp.
    unfold HiddenView.shown. cbn [HiddenView.h_account HiddenView.h_currentPage].
    rewrite !hiddenCommentCids_prefix by lia.
    replace (Z.to_nat ((HiddenView.h_currentPage s - 1) * pageSize))
      with (Z.to_nat ((HiddenView.h_currentPage s - 1) * pageSize)
            `min` Z.to_nat (HiddenView.h_currentPage s * pageSize))%nat
      by (unfold pageSize; lia).
    rewrite <- take_take. apply prefix_take.
Qed.

Lemma hidden_page_controls_witness :
  (length (HiddenView.shown (HiddenView.initial (Some hidden25)))
   < length (HiddenView.shown
               (HiddenView.handle (HiddenView.initial (Some hidden25))
                  HiddenView.ClickNext)))%nat.
Proof.
  apply (proj1 (proj2 hidden_page_controls) (HiddenView.initial (Some hidden25))).
  - simpl. lia.
  - reflexivity.
Defined.

(** ** Votes *)

Lemma votedCommentCids_elem (votes : list Vote) (voteType : Z) (sortType : string)
    (c : string) :
  c ∈ Profile.votedCommentCids (Some votes) voteType sortType
  <-> exists v, v ∈ votes /\ vote v = voteType /\ commentCid v = c.
Proof.
  unfold Profile.votedCommentCids, Profile.sortedVotes.
  rewrite list_elem_of_fmap. setoid_rewrite sort_perm.
  unfold Profile.filteredVotes. setoid_rewrite list_elem_of_In.
  setoid_rewrite filter_In. setoid_rewrite Z.eqb_eq.
  split.
  - intros (v & -> & Hin & Hv). by exists v.
  - intros (v & Hin & Hv & <-). by exists v.
Qed.

(** A voted feed lists the comment cids of the votes of the feed's
    sign, once per such vote: its identifiers are a rearrangement of the
    cids of these votes, in particular a cid is listed exactly when the
    account has a vote of that sign on it; a vote of another value (a
    cancelled vote, or the opposite sign) contributes nothing, and
    without a vote list the feed is empty. *)
Theorem voted_feed_content :
  (forall (votes : list Vote) (voteType : Z) (sortType : string),
     Profile.votedCommentCids (Some votes) voteType sortType
     ≡ₚ map commentCid (List.filter (fun v => vote v =? voteType) votes)) /\
  (forall (votes : list Vote) (voteType : Z) (sortType : string) (c : string),
     c ∈ Profile.votedCommentCids (Some votes) voteType sortType
     <-> exists v, v ∈ votes /\ vote v = voteType /\ commentCid v = c) /\
  (forall (votes : list Vote) (voteType : Z) (sortType : string),
     length (Profile.votedCommentCids (Some votes) voteType sortType)
     = length (List.filter (fun v => vote v =? voteType) votes)) /\
  (forall (votes : list Vote) (sortType : string),
     (length (Profile.votedCommentCids (Some votes) 1 sortType)
      + length (Profile.votedCommentCids (Some votes) (-1) sortType)
      <= length votes)%nat) /\
  (forall (voteType : Z) (sortType : string),
     Profile.votedCommentCids None voteType sortType = []).
Proof.
  split; [|split; [|split; [|split]]].
  - intros votes vt st. unfold Profile.votedCommentCids, Profile.sortedVotes.
    apply Permutation_map, sort_perm.
  - apply votedCommentCids_elem.
  - intros votes vt st. unfold Profile.votedCommentCids, Profile.sortedVotes.
    by rewrite length_map, sort_length.
  - intros votes st. unfold Profile.votedCommentCids, Profile.sortedVotes.
    rewrite !length_map, !sort_length. simpl.
    induction votes as [|v votes IH]; simpl; [lia|].
    destruct (vote v =? 1) eqn:E1, (vote v =? -1) eqn:E2; simpl; lia.
  - reflexivity.
Qed.

(** The sort type changes the order of a voted feed and nothing else:
    the identifiers are a rearrangement, so their number, [hasMore] and
    the number of identifiers on each page are the same for every sort
    type. *)
Theorem voted_pages_sort_independent :
  forall (accountVotes : option (list Vote)) (voteType : Z)
         (sortType sortType' : string) (page : Z),
    let cids := Profile.votedCommentCids accountVotes voteType sortType in
    let cids' := Profile.votedCommentCids accountVotes voteType sortType' in
    cids ≡ₚ cids' /\
    Profile.votedHasMore cids page = Profile.votedHasMore cids' page /\
    length (Profile.paginatedCids cids page)
    = length (Profile.paginatedCids cids' page).
Proof.
  intros votes vt st st' page cids cids'.
  assert (cids ≡ₚ cids') as HP.
  { subst cids cids'. unfold Profile.votedCommentCids, Profile.sortedVotes.
    by rewrite !sort_perm. }
  assert (length cids = length cids') as HL by (by rewrite HP).
  split; [done|]. split.
  - unfold Profile.votedHasMore. by rewrite HL.
  - unfold Profile.paginatedCids, Js.slice. rewrite !length_take, !length_drop.
    by rewrite HL.
Qed.

(** ** The sort dropdown *)

Lemma sortDropdown_handle_inv (s : SortDropdown.State) (ev : SortDropdown.Event) :
  SortDropdown.selectedSort s ∈ sortTypes
  /\ SortDropdown.parentSortType s = SortDropdown.selectedSort s ->
  SortDropdown.selectedSort (SortDropdown.handle s ev) ∈ sortTypes
  /\ SortDropdown.parentSortType (SortDropdown.handle s ev)
     = SortDropdown.selectedSort (SortDropdown.handle s ev).
Proof.
  intros [Hin Heq]. destruct ev as [|i|a b]; simpl; [done| |].
  - destruct (sortTypes !! i) as [st|] eqn:E; [|done].
    split; [|done]. simpl. eapply list_elem_of_lookup_2, E.
  - unfold SortDropdown.handleClickOutside. by destruct (_ && _).
Qed.

(** Whatever the user does with the dropdown, the sort type it
    displays is one of [sortTypes] and is the one the parent feed sorts
    by; choosing an entry closes the list, and so does a mouse-down
    outside both the title and the list, while a mouse-down inside
    either leaves the dropdown as it is.  Accordingly the sort type of a
    mounted [VotedComments] is always one of [sortTypes]. *)
Theorem sortDropdown_in_sync :
  (forall trace : list SortDropdown.Event,
     SortDropdown.selectedSort (SortDropdown.run trace) ∈ sortTypes /\
     SortDropdown.parentSortType (SortDropdown.run trace)
     = SortDropdown.selectedSort (SortDropdown.run trace)) /\
  (forall (s : SortDropdown.State) (index : nat),
     (index < length sortTypes)%nat ->
     SortDropdown.isDropdownOpen
       (SortDropdown.handle s (SortDropdown.ClickChoice index)) = false /\
     sortTypes !! index
     = Some (SortDropdown.parentSortType
               (SortDropdown.handle s (SortDropdown.ClickChoice index)))) /\
  (forall s : SortDropdown.State,
     SortDropdown.isDropdownOpen
       (SortDropdown.handle s (SortDropdown.MouseDown false false)) = false) /\
  (forall (s : SortDropdown.State) (insideDropdown insideChoices : bool),
     insideDropdown || insideChoices = true ->
     SortDropdown.handle s (SortDropdown.MouseDown insideDropdown insideChoices) = s) /\
  (forall (voteType : Z) (trace : list ProfileView.VotedEvent),
     ProfileView.v_sortType (ProfileView.votedRun voteType trace) ∈ sortTypes).
Proof.
  split; [|split; [|split; [|split]]]; cycle 4.
  { intros voteType trace. unfold ProfileView.votedRun.
    assert (ProfileView.v_sortType
              (ProfileView.votedEffects (ProfileView.votedInitial voteType))
            ∈ sortTypes) as H0 by apply list_elem_of_here.
    revert H0.
    generalize (ProfileView.votedEffects (ProfileView.votedInitial voteType)).
    induction trace as [|ev trace IH]; intros s Hs; [done|].
    apply IH. unfold ProfileView.votedStep.
    change (ProfileView.v_sortType
              (ProfileView.votedEffects (ProfileView.votedHandle s ev)))
      with (ProfileView.v_sortType (ProfileView.votedHandle s ev)).
    destruct ev as [e v|vt|i| |]; simpl; try done.
    - destruct (sortTypes !! i) as [st|] eqn:E; [|done].
      simpl. eapply list_elem_of_lookup_2, E.
    - by destruct (paginationPrevious _ _).
    - by destruct (paginationNext _ _). }
  - intros trace. unfold SortDropdown.run.
    assert (SortDropdown.selectedSort SortDropdown.initial ∈ sortTypes
            /\ SortDropdown.parentSortType SortDropdown.initial
               = SortDropdown.selectedSort SortDropdown.initial) as H0.
    { split; [|done]. simpl. apply list_elem_of_here. }
    revert H0. generalize SortDropdown.initial.
    induction trace as [|ev trace IH]; intros s Hs; [done|].
    apply IH, sortDropdown_handle_inv, Hs.
  - intros s index Hi. simpl.
    destruct (sortTypes !! index) as [st|] eqn:E; [done|].
    apply lookup_ge_None in E. lia.
  - done.
  - intros s a b H. simpl. unfold SortDropdown.handleClickOutside.
    destruct a, b; done.
Qed.

Lemma sortDropdown_in_sync_witness :
  sortTypes !! 1%nat
  = Some (SortDropdown.parentSortType
            (SortDropdown.handle SortDropdown.initial (SortDropdown.ClickChoice 1))).
Proof.
  apply (proj1 (proj2 sortDropdown_in_sync) SortDropdown.initial 1%nat).
  simpl. lia.
Defined.

(** ** Reading back the snapshot store *)

Lemma onScroll_load (store : gmap string StateSnapshot) (ev : SnapshotStore.Scroll)
    (key : string) :
  SnapshotStore.load key (SnapshotStore.onScroll store ev)
  = if bool_decide (SnapshotStore.scrollKey ev = key)
       && SnapshotStore.hasRanges (SnapshotStore.received ev)
    then SnapshotStore.received ev
    else SnapshotStore.load key store.
Proof.
  unfold SnapshotStore.onScroll, SnapshotStore.setLastVirtuosoState,
    SnapshotStore.received, SnapshotStore.load.
  destruct (SnapshotStore.scrollRef ev) as [[s|]|];
    try (by rewrite ?Bool.andb_false_r).
  destruct (SnapshotStore.hasRanges (Some s)); [|by rewrite Bool.andb_false_r].
  rewrite Bool.andb_true_r. case_bool_decide as Hk.
  - rewrite Hk. apply lookup_insert_eq.
  - by apply lookup_insert_ne.
Qed.

Lemma saved_acc_is_Some (evs : list SnapshotStore.Scroll) (key : string)
    (acc : option StateSnapshot) :
  is_Some acc ->
  is_Some
    (fold_left
       (fun acc ev =>
          if bool_decide (SnapshotStore.scrollKey ev = key)
             && SnapshotStore.hasRanges (SnapshotStore.received ev)
          then SnapshotStore.received ev else acc)
       evs acc).
Proof.
  revert acc. induction evs as [|ev evs IH]; intros acc Hacc; [done|].
  simpl. apply IH.
  destruct (bool_decide _ && SnapshotStore.hasRanges _) eqn:E; [|done].
  apply Bool.andb_true_iff in E as [_ E].
  by destruct (SnapshotStore.received ev).
Qed.

Lemma scrolls_load_acc (evs : list SnapshotStore.Scroll)
    (store : gmap string StateSnapshot) (key : string) (acc : option StateSnapshot) :
  acc = None \/ SnapshotStore.load key store = acc ->
  SnapshotStore.load key (SnapshotStore.scrolls store evs)
  = from_option Some (SnapshotStore.load key store)
      (fold_left
         (fun acc ev =>
            if bool_decide (SnapshotStore.scrollKey ev = key)
               && SnapshotStore.hasRanges (SnapshotStore.received ev)
            then SnapshotStore.received ev else acc)
         evs acc).
Proof.
  revert store acc. induction evs as [|ev evs IH]; intros store acc Hacc.
  - simpl. destruct Hacc as [->|<-]; [done|].
    by destruct (SnapshotStore.load key store).
  - cbn [SnapshotStore.scrolls fold_left].
    change (fold_left SnapshotStore.onScroll evs (SnapshotStore.onScroll store ev))
      with (SnapshotStore.scrolls (SnapshotStore.onScroll store ev) evs).
    pose proof (onScroll_load store ev key) as Hl.
    destruct (bool_decide _ && SnapshotStore.hasRanges _) eqn:E.
    + rewrite (IH _ (SnapshotStore.received ev)) by (by right).
      apply Bool.andb_true_iff in E as [_ E].
      destruct (SnapshotStore.received ev) as [r|] eqn:Er; [|done].
      by destruct (saved_acc_is_Some evs key (Some r) ltac:(by eexists)) as [x ->].
    + rewrite (IH _ acc); [by rewrite Hl|].
      destruct Hacc as [->|<-]; [by left | by right].
Qed.

(** Last write wins: after any sequence of scroll events, what a feed
    loads for its key is the snapshot of the last event that saved under
    this key (an event for this key whose snapshot has a non-empty range
    list), and the entry the store held before if there was no such
    event.  In particular events for other keys never change it, and an
    entry, once there, is never removed. *)
Theorem snapshot_last_write_wins :
  (forall (store : gmap string StateSnapshot) (evs : list SnapshotStore.Scroll)
          (key : string),
     SnapshotStore.load key (SnapshotStore.scrolls store evs)
     = from_option Some (SnapshotStore.load key store) (lastSaved key evs)) /\
  (forall (store : gmap string StateSnapshot) (evs : list SnapshotStore.Scroll)
          (key : string) (snapshot : StateSnapshot),
     SnapshotStore.hasRanges (Some snapshot) = true ->
     SnapshotStore.load key
       (SnapshotStore.scrolls store
          (evs ++ [SnapshotStore.mkScroll key (Some (Some snapshot))]))
     = Some snapshot) /\
  (forall (store : gmap string StateSnapshot) (evs : list SnapshotStore.Scroll)
          (key : string),
     is_Some (SnapshotStore.load key store) ->
     is_Some (SnapshotStore.load key (SnapshotStore.scrolls store evs))).
Proof.
  assert (forall store evs key,
            SnapshotStore.load key (SnapshotStore.scrolls store evs)
            = from_option Some (SnapshotStore.load key store) (lastSaved key evs)) as H.
  { intros store evs key. apply scrolls_load_acc. by left. }
  split; [exact H|]. split.
  - intros store evs key snapshot Hr. rewrite H. unfold lastSaved.
    rewrite fold_left_app. cbn [fold_left].
    unfold SnapshotStore.received at 1 2.
    cbn [SnapshotStore.scrollKey SnapshotStore.scrollRef].
    rewrite Hr, bool_decide_eq_true_2 by done. done.
  - intros store evs key [s Hs]. rewrite H, Hs.
    destruct (lastSaved key evs); by eexists.
Qed.

Lemma snapshot_last_write_wins_witness :
  SnapshotStore.load "u1new"
    (SnapshotStore.scrolls ∅
       ([SnapshotStore.mkScroll "u1new" (Some (Some (mkSnapshot (Some []) 0)))]
        ++ [SnapshotStore.mkScroll "u1new"
              (Some (Some (mkSnapshot (Some [mkRange 0 4 120]) 300)))]))
  = Some (mkSnapshot (Some [mkRange 0 4 120]) 300).
Proof.
  apply (proj1 (proj2 snapshot_last_write_wins)). reflexivity.
Defined.

(** ** Where a shown banner comes from *)

Lemma profile_keeps_shown (feed : ProfileView.AccountFeed)
    (after : list ProfileView.Props) (st : FeedState) :
  shouldShowErrorToUser st = true ->
  Forall (fun q => ProfileView.sortedComments feed q = []) after ->
  shouldShowErrorToUser (ProfileView.run feed st after) = true.
Proof.
  intros Hs Ha. revert st Hs. induction Ha as [|q after Hq _ IH]; intros st Hs; [done|].
  apply IH. rewrite profile_commit_shown, Hs, Hq.
  unfold ProfileView.showErrorEffect. by destruct (Js.truthy _).
Qed.

Lemma author_keeps_shown (after : list AuthorView.Props) (st : FeedState) :
  shouldShowErrorToUser st = true ->
  Forall (fun q => AuthorView.lengthIsPositive (AuthorView.data q) = false) after ->
  shouldShowErrorToUser (AuthorView.run st after) = true.
Proof.
  intros Hs Ha. revert st Hs. induction Ha as [|q after Hq _ IH]; intros st Hs; [done|].
  apply IH. rewrite author_commit_shown, Hs.
  unfold AuthorView.showErrorEffect. rewrite Hq. by destruct (_ && _).
Qed.

(** The banner of a feed that started hidden is shown exactly when
    some render carried an error with a non-empty message while the
    projection was empty and the projection has been empty in every
    render since.  In the author feed "empty since" means that no later
    render had a row.  So a banner never appears without such an error,
    and it outlives the error for as long as the feed stays empty. *)
Theorem banner_has_a_cause :
  (forall (feed : ProfileView.AccountFeed) (trace : list ProfileView.Props),
     shouldShowErrorToUser (ProfileView.run feed initialFeedState trace) = true <->
     exists before p after,
       trace = (before ++ p :: after)%list /\
       Js.truthy (errorMessage (ProfileView.error p)) = true /\
       ProfileView.sortedComments feed p = [] /\
       Forall (fun q => ProfileView.sortedComments feed q = []) after) /\
  (forall trace : list AuthorView.Props,
     shouldShowErrorToUser (AuthorView.run initialFeedState trace) = true <->
     exists before p after,
       trace = (before ++ p :: after)%list /\
       Js.truthy (errorMessage (AuthorView.error p)) = true /\
       AuthorView.data p = Some [] /\
       Forall (fun q => AuthorView.lengthIsPositive (AuthorView.data q) = false) after).
Proof.
  split.
  - intros feed trace. split.
    + induction trace as [|q trace IH] using rev_ind; [done|].
      unfold ProfileView.run in *. rewrite fold_left_app. cbn [fold_left].
      rewrite profile_commit_shown. unfold ProfileView.showErrorEffect.
      destruct (Js.truthy _) eqn:Et,
        (ProfileView.sortedComments feed q) as [|c l] eqn:Ed; simpl; try done.
      * intros _. exists trace, q, []. by rewrite Ed.
      * intros H. destruct (IH H) as (before & p & after & -> & ? & ? & ?).
        exists before, p, (after ++ [q])%list.
        rewrite <- app_assoc. repeat split; try done.
        apply Forall_app. split; [done|]. by constructor.
    + intros (before & p & after & -> & Ht & Hd & Ha).
      unfold ProfileView.run. rewrite fold_left_app. cbn [fold_left].
      apply (profile_keeps_shown feed after); [|done].
      rewrite profile_commit_shown, Hd.
      unfold ProfileView.showErrorEffect. by rewrite Ht.
  - intros trace. split.
    + induction trace as [|q trace IH] using rev_ind; [done|].
      unfold AuthorView.run in *. rewrite fold_left_app. cbn [fold_left].
      rewrite author_commit_shown. unfold AuthorView.showErrorEffect.
      destruct (Js.truthy _) eqn:Et, (AuthorView.data q) as [[|c l]|] eqn:Ed;
        simpl; try done.
      * intros _. exists trace, q, []. by rewrite Ed.
      * intros H. destruct (IH H) as (before & p & after & -> & ? & ? & ?).
        exists before, p, (after ++ [q])%list.
        rewrite <- app_assoc. repeat split; try done.
        apply Forall_app. split; [done|]. constructor; [by rewrite Ed | done].
      * intros H. destruct (IH H) as (before & p & after & -> & ? & ? & ?).
        exists before, p, (after ++ [q])%list.
        rewrite <- app_assoc. repeat split; try done.
        apply Forall_app. split; [done|]. constructor; [by rewrite Ed | done].
      * intros H. destruct (IH H) as (before & p & after & -> & ? & ? & ?).
        exists before, p, (after ++ [q])%list.
        rewrite <- app_assoc. repeat split; try done.
        apply Forall_app. split; [done|]. constructor; [by rewrite Ed | done].
    + intros (before & p & after & -> & Ht & Hd & Ha).
      unfold AuthorView.run. rewrite fold_left_app. cbn [fold_left].
      apply (author_keeps_shown after); [|done].
      rewrite author_commit_shown, Hd.
      unfold AuthorView.showErrorEffect. by rewrite Ht.
Qed.

Lemma banner_has_a_cause_witness :
  exists before p after,
    [ProfileView.mkProps (Some errorA) [] "new"; ProfileView.mkProps None [] "new"]
    = (before ++ p :: after)%list /\
    Js.truthy (errorMessage (ProfileView.error p)) = true /\
    ProfileView.sortedComments ProfileView.Overview p = [] /\
    Forall (fun q => ProfileView.sortedComments ProfileView.Overview q = []) after.
Proof.
  apply (proj1 (proj1 banner_has_a_cause ProfileView.Overview
                  [ProfileView.mkProps (Some errorA) [] "new";
                   ProfileView.mkProps None [] "new"])).
  reflexivity.
Defined.

(** ** What the console holds *)

Lemma author_run_log (trace : list AuthorView.Props) (st : FeedState) :
  console (AuthorView.run st trace) = console (logAll (map AuthorView.error trace) st)
  /\ prevErrorMessageRef (AuthorView.run st trace)
     = prevErrorMessageRef (logAll (map AuthorView.error trace) st).
Proof.
  revert st. induction trace as [|p trace IH]; intros st; [done|].
  unfold AuthorView.run, logAll in *. cbn [fold_left map].
  destruct (IH (AuthorView.commit st p)) as [-> ->].
  unfold AuthorView.commit.
  generalize (AuthorView.showErrorEffect (AuthorView.error p) (AuthorView.data p)
                (shouldShowErrorToUser (logEffect (AuthorView.error p) st))).
  intros b. clear IH.
  generalize (logEffect (AuthorView.error p) st). intros st'.
  generalize (map AuthorView.error trace). intros errors.
  assert (forall st1 st2 : FeedState,
            console st1 = console st2 ->
            prevErrorMessageRef st1 = prevErrorMessageRef st2 ->
            console (fold_left (fun st e => logEffect e st) errors st1)
            = console (fold_left (fun st e => logEffect e st) errors st2)
            /\ prevErrorMessageRef (fold_left (fun st e => logEffect e st) errors st1)
               = prevErrorMessageRef (fold_left (fun st e => logEffect e st) errors st2))
    as Hc.
  { induction errors as [|e errors IHe]; intros st1 st2 H1 H2; [done|].
    simpl. apply IHe; unfold logEffect; destruct e as [e|]; try done;
      rewrite H2; destruct (decide _); simpl; congruence. }
  by apply Hc.
Qed.

Lemma profile_run_log (feed : ProfileView.AccountFeed)
    (trace : list ProfileView.Props) (st : FeedState) :
  console (ProfileView.run feed st trace)
  = console (logAll (map ProfileView.error trace) st)
  /\ prevErrorMessageRef (ProfileView.run feed st trace)
     = prevErrorMessageRef (logAll (map ProfileView.error trace) st).
Proof.
  revert st. induction trace as [|p trace IH]; intros st; [done|].
  unfold ProfileView.run, logAll in *. cbn [fold_left map].
  destruct (IH (ProfileView.commit feed st p)) as [-> ->].
  unfold ProfileView.commit.
  generalize (ProfileView.showErrorEffect (ProfileView.error p)
                (ProfileView.sortedComments feed p)
                (shouldShowErrorToUser (logEffect (ProfileView.error p) st))).
  intros b. clear IH.
  generalize (logEffect (ProfileView.error p) st). intros st'.
  generalize (map ProfileView.error trace). intros errors.
  assert (forall st1 st2 : FeedState,
            console st1 = console st2 ->
            prevErrorMessageRef st1 = prevErrorMessageRef st2 ->
            console (fold_left (fun st e => logEffect e st) errors st1)
            = console (fold_left (fun st e => logEffect e st) errors st2)
            /\ prevErrorMessageRef (fold_left (fun st e => logEffect e st) errors st1)
               = prevErrorMessageRef (fold_left (fun st e => logEffect e st) errors st2))
    as Hc.
  { induction errors as [|e errors IHe]; intros st1 st2 H1 H2; [done|].
    simpl. apply IHe; unfold logEffect; destruct e as [e|]; try done;
      rewrite H2; destruct (decide _); simpl; congruence. }
  by apply Hc.
Qed.

Lemma logAll_snoc (errors : list (option ErrorInfo)) (error : option ErrorInfo)
    (st : FeedState) :
  logAll (errors ++ [error]) st = logEffect error (logAll errors st).
Proof. unfold logAll. by rewrite fold_left_app. Qed.

Lemma logAll_elem (errors : list (option ErrorInfo)) (e : ErrorInfo) :
  e ∈ console (logAll errors initialFeedState) -> e ∈ present errors.
Proof.
  unfold present.
  induction errors as [|error errors IH] using rev_ind; [done|].
  rewrite logAll_snoc, omap_app, elem_of_app. unfold logEffect.
  destruct error as [e'|]; [|by left; auto].
  destruct (decide _); [by left; auto|].
  simpl. rewrite elem_of_app, list_elem_of_singleton.
  intros [H| ->]; [left; auto | by right].
Qed.

Lemma logAll_head (errors : list (option ErrorInfo)) :
  head (console (logAll errors initialFeedState)) = head (present errors)
  /\ (console (logAll errors initialFeedState) = [] ->
      prevErrorMessageRef (logAll errors initialFeedState) = None).
Proof.
  unfold present.
  induction errors as [|error errors [IH1 IH2]] using rev_ind; [done|].
  rewrite logAll_snoc, omap_app. unfold logEffect.
  destruct error as [e'|]; simpl.
  - destruct (decide _) as [Heq|Hne].
    + destruct (console (logAll errors initialFeedState)) as [|x l] eqn:Ec.
      { rewrite IH2 in Heq; done. }
      simpl in IH1. split; [|done].
      destruct (omap id errors); simpl in *; done.
    + simpl. split; [|by destruct (console _)].
      destruct (console (logAll errors initialFeedState)) as [|x l] eqn:Ec;
        destruct (omap id errors); simpl in *; done.
  - by rewrite app_nil_r.
Qed.

Lemma logAll_same_message (errors : list (option ErrorInfo)) (m : string) :
  Forall (fun e => message e = m) (present errors) ->
  (length (console (logAll errors initialFeedState)) <= 1)%nat
  /\ (console (logAll errors initialFeedState) <> [] ->
      prevErrorMessageRef (logAll errors initialFeedState) = Some m).
Proof.
  unfold present.
  induction errors as [|error errors IH] using rev_ind; [by split; [simpl; lia|]|].
  rewrite omap_app, Forall_app. intros [H1 H2].
  destruct (IH H1) as [IHl IHp]. rewrite logAll_snoc. unfold logEffect.
  destruct error as [e|]; [|done].
  simpl in H2. apply Forall_inv in H2. simpl in H2. subst m.
  destruct (decide _) as [Heq|Hne]; [done|].
  simpl. destruct (console (logAll errors initialFeedState)) as [|x l] eqn:Ec.
  - split; [simpl; lia | done].
  - exfalso. apply Hne. symmetry. by apply IHp.
Qed.

(** Every console entry is an error the hook delivered; the first
    console entry is the first error delivered, whatever its message;
    and when all delivered errors carry the same message, at most one of
    them is logged. *)
Theorem console_entries :
  (forall (feed : ProfileView.AccountFeed) (trace : list ProfileView.Props),
     let errors := present (map ProfileView.error trace) in
     let log := console (ProfileView.run feed initialFeedState trace) in
     (forall e, e ∈ log -> e ∈ errors) /\
     head log = head errors /\
     (forall m, Forall (fun e => message e = m) errors -> (length log <= 1)%nat)) /\
  (forall trace : list AuthorView.Props,
     let errors := present (map AuthorView.error trace) in
     let log := console (AuthorView.run initialFeedState trace) in
     (forall e, e ∈ log -> e ∈ errors) /\
     head log = head errors /\
     (forall m, Forall (fun e => message e = m) errors -> (length log <= 1)%nat)).
Proof.
  split.
  - intros feed trace errors log. subst errors log.
    rewrite (proj1 (profile_run_log feed trace initialFeedState)).
    split; [apply logAll_elem|]. split; [apply logAll_head|].
    intros m H. by apply (logAll_same_message _ m).
  - intros trace errors log. subst errors log.
    rewrite (proj1 (author_run_log trace initialFeedState)).
    split; [apply logAll_elem|]. split; [apply logAll_head|].
    intros m H. by apply (logAll_same_message _ m).
Qed.

Lemma console_entries_witness :
  (length
     (console
        (AuthorView.run initialFeedState
           [AuthorView.mkProps (Some errorA) None false false false;
            AuthorView.mkProps None None false false false;
            AuthorView.mkProps (Some errorA) None false false false]))
   <= 1)%nat.
Proof.
  apply (proj2 (proj2 (proj2 console_entries
           [AuthorView.mkProps (Some errorA) None false false false;
            AuthorView.mkProps None None false false false;
            AuthorView.mkProps (Some errorA) None false false false]))
           "timeout").
  repeat constructor.
Defined.

(** ** Errors without a message *)

Lemma silent_truthy (error : option ErrorInfo) :
  (forall e, error = Some e -> message e = "") ->
  Js.truthy (errorMessage error) = false.
Proof.
  destruct error as [e|]; [|done]. intros H. simpl. by rewrite (H e eq_refl).
Qed.

(** An error whose message is the empty string is logged like any
    other but can never bring up the banner: as long as every delivered
    error has an empty message, the banner of the account feeds and of
    the author feed stays hidden, while the console is not empty as soon
    as one error was delivered. *)
Theorem empty_message_never_shown :
  (forall (feed : ProfileView.AccountFeed) (trace : list ProfileView.Props),
     Forall (fun p => forall e, ProfileView.error p = Some e -> message e = "") trace ->
     shouldShowErrorToUser (ProfileView.run feed initialFeedState trace) = false /\
     (forall p, p ∈ trace -> ProfileView.error p <> None ->
                console (ProfileView.run feed initialFeedState trace) <> [])) /\
  (forall trace : list AuthorView.Props,
     Forall (fun p => forall e, AuthorView.error p = Some e -> message e = "") trace ->
     shouldShowErrorToUser (AuthorView.run initialFeedState trace) = false /\
     (forall p, p ∈ trace -> AuthorView.error p <> None ->
                console (AuthorView.run initialFeedState trace) <> [])).
Proof.
  split.
  - intros feed trace Hall. split.
    + induction trace as [|q trace IH] using rev_ind; [done|].
      apply Forall_app in Hall as [Ht Hq]. apply Forall_inv in Hq.
      unfold ProfileView.run in *. rewrite fold_left_app. cbn [fold_left].
      rewrite profile_commit_shown, (IH Ht).
      unfold ProfileView.showErrorEffect. rewrite (silent_truthy _ Hq).
      simpl. by destruct (0 <? _)%nat.
    + intros p Hp He Hnil.
      pose proof (logAll_head (map ProfileView.error trace)) as [Hh _].
      rewrite <- (proj1 (profile_run_log feed trace initialFeedState)), Hnil in Hh.
      destruct (ProfileView.error p) as [e|] eqn:E; [|done].
      assert (e ∈ present (map ProfileView.error trace)) as Hin.
      { unfold present. apply list_elem_of_omap. exists (Some e). split; [|done].
        rewrite <- E. by apply list_elem_of_fmap_2. }
      destruct (present _); [by apply not_elem_of_nil in Hin | done].
  - intros trace Hall. split.
    + induction trace as [|q trace IH] using rev_ind; [done|].
      apply Forall_app in Hall as [Ht Hq]. apply Forall_inv in Hq.
      unfold AuthorView.run in *. rewrite fold_left_app. cbn [fold_left].
      rewrite author_commit_shown, (IH Ht).
      unfold AuthorView.showErrorEffect. rewrite (silent_truthy _ Hq).
      simpl. by destruct (AuthorView.lengthIsPositive _).
    + intros p Hp He Hnil.
      pose proof (logAll_head (map AuthorView.error trace)) as [Hh _].
      rewrite <- (proj1 (author_run_log trace initialFeedState)), Hnil in Hh.
      destruct (AuthorView.error p) as [e|] eqn:E; [|done].
      assert (e ∈ present (map AuthorView.error trace)) as Hin.
      { unfold present. apply list_elem_of_omap. exists (Some e). split; [|done].
        rewrite <- E. by apply list_elem_of_fmap_2. }
      destruct (present _); [by apply not_elem_of_nil in Hin | done].
Qed.

Lemma empty_message_never_shown_witness :
  shouldShowErrorToUser
    (ProfileView.run ProfileView.Overview initialFeedState
       [ProfileView.mkProps (Some (mkError "")) [] "new"])
  = false.
Proof.
  apply (proj1 empty_message_never_shown ProfileView.Overview
           [ProfileView.mkProps (Some (mkError "")) [] "new"]).
  repeat constructor. simpl. by intros e [= <-].
Defined.

(** ** Rows *)

Lemma author_reply_rows (l : list (option Comment)) :
  Forall (fun r => exists c, r = ReplyRow (Some c) /\ isReply c = true)
    (map Rows.authorItemContent (Author.replyComments (Some l))).
Proof.
  apply Forall_fmap, Forall_forall. intros x Hx.
  apply list_elem_of_In, filter_In in Hx as [_ Hx].
  destruct x as [c|]; [|done]. exists c. split; [|done].
  unfold Rows.authorItemContent. simpl. unfold isReply in Hx. by rewrite Hx.
Qed.

Lemma author_post_rows (l : list (option Comment)) :
  Forall (fun r => exists c, r = PostRow (Some c) /\ isReply c = false)
    (map Rows.authorItemContent (Author.postComments (Some l))).
Proof.
  apply Forall_fmap, Forall_forall. intros x Hx.
  apply list_elem_of_In, filter_In in Hx as [_ Hx].
  destruct x as [c|]; [|done]. apply Bool.negb_true_iff in Hx.
  exists c. split; [|done].
  unfold Rows.authorItemContent. simpl. unfold isReply in Hx. by rewrite Hx.
Qed.

(** The filter and the row renderer agree.  In the comments view of an
    author and in the [Comments] feed of the profile every row is a
    reply; in the submitted view and in the [Submitted] feed every row
    is a post; and each feed has one row per item of its projection. *)
Theorem rows_match_the_view :
  (forall p : AuthorView.Props,
     AuthorView.isInAuthorCommentsView p = true ->
     Forall (fun r => exists c, r = ReplyRow (Some c) /\ isReply c = true)
       (Rows.authorRows p)) /\
  (forall p : AuthorView.Props,
     AuthorView.isInAuthorCommentsView p = false ->
     AuthorView.isInAuthorSubmittedView p = true ->
     Forall (fun r => exists c, r = PostRow (Some c) /\ isReply c = false)
       (Rows.authorRows p)) /\
  (forall p : ProfileView.Props,
     Forall (fun r => exists c, r = ReplyRow (Some c) /\ isReply c = true)
       (Rows.profileRows ProfileView.Comments p) /\
     Forall (fun r => exists c, r = PostRow (Some c) /\ isReply c = false)
       (Rows.profileRows ProfileView.Submitted p)) /\
  (forall (feed : ProfileView.AccountFeed) (p : ProfileView.Props),
     length (Rows.profileRows feed p) = length (ProfileView.filteredComments feed p)).
Proof.
  split; [|split; [|split]].
  - intros p Hc. unfold Rows.authorRows, AuthorView.data, Author.virtuosoData.
    rewrite Hc. destruct (AuthorView.authorComments p) as [l|].
    + apply author_reply_rows.
    + constructor.
  - intros p Hc Hs. unfold Rows.authorRows, AuthorView.data, Author.virtuosoData.
    rewrite Hc, Hs. destruct (AuthorView.authorComments p) as [l|].
    + apply author_post_rows.
    + constructor.
  - intros p. unfold Rows.profileRows. split.
    + apply Forall_fmap, Forall_forall. intros c Hc.
      apply list_elem_of_In, sortedComments_In in Hc.
      apply profile_reply_In in Hc as [_ Hc].
      exists c. split; [|done]. unfold Rows.listItemContent.
      unfold isReply in Hc. by rewrite Hc.
    + apply Forall_fmap, Forall_forall. intros c Hc.
      apply list_elem_of_In, sortedComments_In in Hc.
      apply profile_post_In in Hc as [_ Hc].
      exists c. split; [|done]. unfold Rows.listItemContent.
      unfold isReply in Hc. by rewrite Hc.
  - intros feed p. unfold Rows.profileRows, ProfileView.sortedComments.
    by rewrite length_map, sort_length.
Qed.

Lemma rows_match_the_view_witness :
  Forall (fun r => exists c, r = ReplyRow (Some c) /\ isReply c = true)
    (Rows.authorRows
       (AuthorView.mkProps None
          (Some [Some (mkComment "a" None 3); None; Some (mkComment "b" (Some "a") 9)])
          false true false)).
Proof.
  apply (proj1 rows_match_the_view). reflexivity.
Defined.

(** In a voted feed whose renders all had distinct identifiers, one
    [CommentItem] is rendered per identifier of the current slice, at
    most [pageSize], in the order of the slice: the item of a comment
    that is resolved with a [subplebbitAddress] is a reply when the
    comment has a parent and a post otherwise, and the item of any other
    identifier renders nothing.  The empty state is decided on the
    identifiers alone: a page whose comments are all unresolved renders
    no row and no "nothing found". *)
Theorem voted_rows :
  (forall (useComment : string -> option FetchedComment) (voteType : Z)
          (trace : list ProfileView.VotedEvent),
     Forall (fun s => NoDup (ProfileView.votedSlice s))
       (Rows.votedHistory (ProfileView.votedEffects (ProfileView.votedInitial voteType))
          trace) ->
     exists rows,
       Rows.votedRows useComment voteType trace = Some rows /\
       length rows
       = length (ProfileView.votedSlice (ProfileView.votedRun voteType trace)) /\
       Z.of_nat (length rows) <= pageSize) /\
  (forall (useComment : string -> option FetchedComment) (voteType : Z)
          (trace : list ProfileView.VotedEvent)
          (rows : list (option Row)) (i : nat) (cid : string),
     Rows.votedRows useComment voteType trace = Some rows ->
     ProfileView.votedSlice (ProfileView.votedRun voteType trace) !! i = Some cid ->
     (forall c, useComment cid = Some c ->
                Js.truthy (subplebbitAddress c) = true ->
                rows !! i
                = Some (Some (if isReply (fetched c) then ReplyRow (Some (fetched c))
                              else PostRow (Some (fetched c))))) /\
     (forall c, useComment cid = Some c ->
                Js.truthy (subplebbitAddress c) = false ->
                rows !! i = Some None) /\
     (useComment cid = None -> rows !! i = Some None)) /\
  (forall (useComment : string -> option FetchedComment) (voteType : Z)
          (trace : list ProfileView.VotedEvent) (rows : list (option Row)),
     Rows.votedRows useComment voteType trace = Some rows ->
     (forall cid, useComment cid = None) ->
     ProfileView.votedSlice (ProfileView.votedRun voteType trace) <> [] ->
     Forall (fun row => row = None) rows /\
     nothingFound (ProfileView.votedRender (ProfileView.votedRun voteType trace))
     = false).
Proof.
  split; [|split].
  - intros useComment vt trace Hnd. unfold Rows.votedRows.
    rewrite bool_decide_eq_true_2 by done. eexists. split; [done|].
    rewrite length_map. split; [done|].
    apply paginatedCids_length_le, votedRun_inv.
  - intros useComment vt trace rows i cid. unfold Rows.votedRows.
    case_bool_decide; [|done]. intros [= <-] Hi.
    rewrite list_lookup_fmap, Hi. simpl. unfold Rows.commentItem.
    split; [|split].
    + intros c -> ->. simpl. by destruct (isReply (fetched c)).
    + by intros c -> ->.
    + by intros ->.
  - intros useComment vt trace rows. unfold Rows.votedRows.
    case_bool_decide; [|done]. intros [= <-] Hnone Hne. split.
    + apply Forall_fmap, Forall_forall. intros cid _.
      simpl. by rewrite Hnone.
    + simpl. by destruct (ProfileView.votedSlice _).
Qed.

Lemma voted_rows_witness :
  exists rows,
    Rows.votedRows (fun _ => None) 1
      [ProfileView.HookUpdate None (Some elevenUpvotes)]
    = Some rows /\
    length rows
    = length (ProfileView.votedSlice
                (ProfileView.votedRun 1
                   [ProfileView.HookUpdate None (Some elevenUpvotes)])) /\
    Z.of_nat (length rows) <= pageSize.
Proof.
  apply (proj1 voted_rows (fun _ => None) 1
           [ProfileView.HookUpdate None (Some elevenUpvotes)]).
  apply (bool_decide_unpack
           (Forall (fun s => NoDup (ProfileView.votedSlice s))
              (Rows.votedHistory
                 (ProfileView.votedEffects (ProfileView.votedInitial 1))
                 [ProfileView.HookUpdate None (Some elevenUpvotes)]))).
  vm_compute. exact I.
Defined.

(** ** The visit counter of the infobar *)

Lemma digitValue_pretty_char (y : N) :
  (y < 10)%N -> Infobar.digitValue 10 (pretty_N_char y) = Some (Z.of_N y).
Proof.
  intros H.
  assert (y = 0 \/ y = 1 \/ y = 2 \/ y = 3 \/ y = 4 \/ y = 5 \/ y = 6 \/ y = 7
          \/ y = 8 \/ y = 9)%N as Hy by lia.
  repeat (destruct Hy as [->|Hy]; [reflexivity|]). by subst.
Qed.

Lemma parseDigits_pretty_go (x : N) :
  (0 < x)%N ->
  exists k : Z, 0 <= k /\
    forall (s : string) (acc : option Z),
      Infobar.parseDigits 10 acc (pretty_N_go x s)
      = Infobar.parseDigits 10
          (Some (match acc with Some a => a | None => 0 end * 10 ^ k + Z.of_N x)) s.
Proof.
  induction (N.lt_wf_0 x) as [x _ IH]. intros Hx.
  assert (x `mod` 10 < 10)%N as Hm by (apply N.mod_lt; lia).
  pose proof (N.div_mod x 10 ltac:(lia)) as Hdm.
  destruct (decide (x `div` 10 = 0)%N) as [Hz|Hnz].
  - exists 1. split; [lia|]. intros s acc.
    rewrite pretty_N_go_step, Hz, pretty_N_go_0 by done.
    cbn [Infobar.parseDigits]. rewrite digitValue_pretty_char by done.
    do 2 f_equal. lia.
  - destruct (IH (x `div` 10)%N) as (k & Hk & IHk).
    { apply N.div_lt; lia. }
    { lia. }
    exists (k + 1). split; [lia|]. intros s acc.
    rewrite pretty_N_go_step, IHk by done.
    cbn [Infobar.parseDigits]. rewrite digitValue_pretty_char by done.
    do 2 f_equal. rewrite Z.pow_add_r by lia. lia.
Qed.

(** The first character that [pretty] writes for a positive number is
    one of the digits 1 to 9. *)
Lemma pretty_go_head (x : N) (s : string) :
  (0 < x)%N ->
  exists (y : N) (rest : string),
    (1 <= y < 10)%N /\ pretty_N_go x s = String (pretty_N_char y) rest.
Proof.
  revert s. induction (N.lt_wf_0 x) as [x _ IH]. intros s Hx.
  rewrite pretty_N_go_step by done.
  destruct (decide (x `div` 10 = 0)%N) as [Hz|Hnz].
  - rewrite Hz, pretty_N_go_0. exists (x `mod` 10)%N, s. split; [|done].
    pose proof (N.div_mod x 10 ltac:(lia)).
    assert (x `mod` 10 < 10)%N by (apply N.mod_lt; lia). lia.
  - apply IH.
    + apply N.div_lt; lia.
    + apply N.neq_0_lt_0, Hnz.
Qed.

Lemma pretty_char_ascii (y : N) : Infobar.isAscii (pretty_N_char y) = true.
Proof. unfold pretty_N_char. by repeat case_match. Qed.

Lemma pretty_go_ascii (x : N) (s : string) :
  Infobar.allAscii s = true -> Infobar.allAscii (pretty_N_go x s) = true.
Proof.
  revert s. induction (N.lt_wf_0 x) as [x _ IH]. intros s Hs.
  destruct (decide (x = 0)%N) as [->|Hx]; [by rewrite pretty_N_go_0|].
  rewrite pretty_N_go_step by lia. apply IH.
  - apply N.div_lt; lia.
  - simpl. by rewrite pretty_char_ascii.
Qed.

Lemma pretty_Z_ascii (z : Z) : Infobar.allAscii (pretty z) = true.
Proof.
  destruct z as [|p|p]; [reflexivity| |].
  - change (pretty (Z.pos p)) with (pretty (N.pos p)).
    unfold pretty, pretty_N. rewrite decide_False by done.
    by apply pretty_go_ascii.
  - change (pretty (Z.neg p)) with ("-" +:+ pretty (N.pos p)).
    unfold pretty, pretty_N. rewrite decide_False by done.
    simpl. by apply pretty_go_ascii.
Qed.

Lemma fmap_mul_1 (o : option Z) : Z.mul 1 <$> o = o.
Proof. destruct o as [z|]; [|done]. simpl. f_equal. by destruct z. Qed.

Lemma parseInteger_leading_digit (y : N) (rest : string) :
  (1 <= y < 10)%N ->
  Infobar.parseInteger (String (pretty_N_char y) rest)
  = Infobar.parseDigits 10 None (String (pretty_N_char y) rest)
  /\ Infobar.parseInteger (String "-" (String (pretty_N_char y) rest))
     = Z.mul (-1) <$> Infobar.parseDigits 10 None (String (pretty_N_char y) rest).
Proof.
  intros H.
  assert (y = 1 \/ y = 2 \/ y = 3 \/ y = 4 \/ y = 5 \/ y = 6 \/ y = 7
          \/ y = 8 \/ y = 9)%N as Hy by lia.
  repeat (destruct Hy as [->|Hy]; [split; [apply fmap_mul_1 | reflexivity]|]).
  subst. split; [apply fmap_mul_1 | reflexivity].
Qed.

Lemma parseInteger_pretty (z : Z) : Infobar.parseInteger (pretty z) = Some z.
Proof.
  destruct z as [|p|p]; [reflexivity| |].
  - change (pretty (Z.pos p)) with (pretty (N.pos p)).
    unfold pretty, pretty_N. rewrite decide_False by done.
    destruct (pretty_go_head (N.pos p) "" ltac:(lia)) as (y & rest & Hy & Heq).
    destruct (parseDigits_pretty_go (N.pos p) ltac:(lia)) as (k & Hk & Hp).
    rewrite Heq, (proj1 (parseInteger_leading_digit y rest Hy)), <- Heq, Hp.
    simpl. f_equal; lia.
  - change (pretty (Z.neg p)) with ("-" +:+ pretty (N.pos p)).
    unfold pretty, pretty_N. rewrite decide_False by done.
    destruct (pretty_go_head (N.pos p) "" ltac:(lia)) as (y & rest & Hy & Heq).
    destruct (parseDigits_pretty_go (N.pos p) ltac:(lia)) as (k & Hk & Hp).
    rewrite Heq.
    change ("-" +:+ String (pretty_N_char y) rest)
      with (String "-" (String (pretty_N_char y) rest)).
    rewrite (proj2 (parseInteger_leading_digit y rest Hy)), <- Heq, Hp.
    simpl. f_equal; lia.
Qed.

Lemma parseInt_pretty (z : Z) :
  - Infobar.maxSafeInteger <= z <= Infobar.maxSafeInteger ->
  Infobar.parseInt (pretty z) = Infobar.Int z.
Proof.
  intros Hz. unfold Infobar.parseInt.
  rewrite pretty_Z_ascii, parseInteger_pretty. simpl negb. cbv iota.
  destruct (_ <=? z) eqn:E1; [|lia].
  destruct (z <=? _) eqn:E2; [done | lia].
Qed.

Lemma pretty_Z_truthy (z : Z) : Js.truthy (Some (pretty z)) = true.
Proof.
  destruct z as [|p|p]; [reflexivity| |].
  - change (pretty (Z.pos p)) with (pretty (N.pos p)).
    unfold pretty, pretty_N. rewrite decide_False by done.
    by destruct (pretty_go_head (N.pos p) "" ltac:(lia)) as (y & rest & _ & ->).
  - reflexivity.
Qed.

Lemma mount_counter (address imported : option string) (v : Z) :
  Infobar.differs imported address = true ->
  - Infobar.maxSafeInteger <= v <= Infobar.maxSafeInteger ->
  Infobar.mount address (Infobar.mkStorage (Some (pretty v)) imported)
  = Some (if v <? 4
          then (true, Infobar.mkStorage (Some (pretty (v + 1))) imported)
          else (false, Infobar.mkStorage (Some (pretty v)) imported)).
Proof.
  intros Hd Hv. unfold Infobar.mount.
  cbn [Infobar.profileVisits Infobar.importedAccountAddress].
  rewrite Hd, pretty_Z_truthy, parseInt_pretty by done. simpl negb. cbv iota.
  by destruct (v <? 4).
Qed.

Lemma mount_fresh (address imported : option string) :
  Infobar.differs imported address = true ->
  Infobar.mount address (Infobar.mkStorage None imported)
  = Some (true, Infobar.mkStorage (Some (pretty 1)) imported).
Proof.
  intros Hd. unfold Infobar.mount.
  cbn [Infobar.profileVisits Infobar.importedAccountAddress].
  rewrite Hd. reflexivity.
Qed.

Lemma visits_counter (address imported : option string) (n : nat) (v : Z) :
  Infobar.differs imported address = true ->
  - Infobar.maxSafeInteger <= v <= Infobar.maxSafeInteger ->
  Infobar.visits address n (Infobar.mkStorage (Some (pretty v)) imported)
  = Some ((replicate (n `min` Z.to_nat (4 - v)) true
           ++ replicate (n - Z.to_nat (4 - v)) false)%list,
          Infobar.mkStorage
            (Some (pretty (Z.max v (Z.min 4 (v + Z.of_nat n))))) imported).
Proof.
  intros Hd. revert v. induction n as [|n IH]; intros v Hv.
  - cbn [Infobar.visits].
    replace (Z.max v (Z.min 4 (v + Z.of_nat 0))) with v by lia. done.
  - cbn [Infobar.visits]. rewrite mount_counter by done.
    unfold Infobar.maxSafeInteger in *.
    destruct (v <? 4) eqn:E.
    + apply Z.ltb_lt in E. rewrite IH by lia.
      replace (Z.to_nat (4 - v)) with (S (Z.to_nat (4 - (v + 1)))) by lia.
      replace (Z.max (v + 1) (Z.min 4 (v + 1 + Z.of_nat n)))
        with (Z.max v (Z.min 4 (v + Z.of_nat (S n)))) by lia.
      done.
    + apply Z.ltb_ge in E. rewrite IH by lia.
      replace (Z.to_nat (4 - v)) with 0%nat by lia.
      replace (Z.max v (Z.min 4 (v + Z.of_nat n)))
        with (Z.max v (Z.min 4 (v + Z.of_nat (S n)))) by lia.
      rewrite !Nat.min_0_r, !Nat.sub_0_r. done.
Qed.

(** What the component writes it reads back: for every integer of the
    safe range, [parseInt] of its decimal text is that integer.  Hence a
    stored count [v] of that range makes the infobar appear on exactly
    the next [4 - v] visits (none if [v >= 4]) of an account that was
    not imported, each showing adding one to the count; on a fresh
    storage the infobar appears on the first four visits (the test is
    [profileVisits < 4] on a count that starts at 0) and the count then
    stays at 4. *)
Theorem infobar_visit_counter :
  (forall z : Z,
     - Infobar.maxSafeInteger <= z <= Infobar.maxSafeInteger ->
     Infobar.parseInt (pretty z) = Infobar.Int z) /\
  (forall (address imported : option string) (n : nat) (v : Z),
     Infobar.differs imported address = true ->
     - Infobar.maxSafeInteger <= v <= Infobar.maxSafeInteger ->
     Infobar.visits address n (Infobar.mkStorage (Some (pretty v)) imported)
     = Some ((replicate (n `min` Z.to_nat (4 - v)) true
              ++ replicate (n - Z.to_nat (4 - v)) false)%list,
             Infobar.mkStorage
               (Some (pretty (Z.max v (Z.min 4 (v + Z.of_nat n))))) imported)) /\
  (forall (address imported : option string) (n : nat),
     Infobar.differs imported address = true ->
     (1 <= n)%nat ->
     Infobar.visits address n (Infobar.mkStorage None imported)
     = Some ((replicate (n `min` 4) true ++ replicate (n - 4) false)%list,
             Infobar.mkStorage (Some (pretty (Z.min 4 (Z.of_nat n)))) imported)).
Proof.
  split; [apply parseInt_pretty|]. split; [apply visits_counter|].
  intros address imported n Hd Hn.
  destruct n as [|n]; [lia|].
  cbn [Infobar.visits]. rewrite mount_fresh by done.
  rewrite visits_counter by (done || (unfold Infobar.maxSafeInteger; lia)).
  change (Z.to_nat (4 - 1)) with 3%nat.
  replace (Z.max 1 (Z.min 4 (1 + Z.of_nat n)))
    with (Z.min 4 (Z.of_nat (S n))) by lia.
  done.
Qed.

Lemma infobar_visit_counter_witness :
  Infobar.visits (Some "12D3") 6 (Infobar.mkStorage None None)
  = Some ([true; true; true; true; false; false],
          Infobar.mkStorage (Some "4") None).
Proof.
  apply (proj2 (proj2 infobar_visit_counter) (Some "12D3") None 6%nat).
  - reflexivity.
  - lia.
Defined.





(** ** Newest first against oldest first *)

Lemma StronglySorted_reverse {A} (R : A -> A -> Prop) (l : list A) :
  StronglySorted R l -> StronglySorted (fun a b => R b a) (reverse l).
Proof.
  induction 1 as [|x l Hs IH Hx]; [constructor|].
  rewrite reverse_cons. apply StronglySorted_app_2; [|done|repeat constructor].
  intros x1 x2 H1 H2. apply list_elem_of_singleton in H2 as ->.
  rewrite elem_of_reverse in H1. rewrite Forall_forall in Hx. by apply Hx.
Qed.

Lemma NoDup_fmap_eq {A B} (f : A -> B) (l : list A) (x y : A) :
  NoDup (map f l) -> x ∈ l -> y ∈ l -> f x = f y -> x = y.
Proof.
  induction l as [|z l IH]; simpl; [by intros _ H%not_elem_of_nil|].
  rewrite NoDup_cons. intros [Hz Hl].
  rewrite !elem_of_cons. intros [->|Hx] [->|Hy] Hf; try done.
  - exfalso. apply Hz. rewrite Hf. by apply list_elem_of_fmap_2.
  - exfalso. apply Hz. rewrite <- Hf. by apply list_elem_of_fmap_2.
  - by apply IH.
Qed.

Lemma sort_new_reverse_old (l : list Comment) :
  NoDup (map timestamp l) ->
  Js.sort (byTimestamp "new") l = reverse (Js.sort (byTimestamp "old") l).
Proof.
  intros Hnd.
  apply (StronglySorted_unique_strong (fun a b => timestamp b <= timestamp a)).
  - intros x1 x2 H1 H2 Ha Hb.
    rewrite sort_perm in H1.
    rewrite elem_of_reverse, sort_perm in H2.
    apply (NoDup_fmap_eq timestamp l); [done..|lia].
  - apply byTimestamp_new_sorted.
  - apply (StronglySorted_reverse (fun a b => timestamp a <= timestamp b)).
    by apply byTimestamp_old_sorted.
  - by rewrite reverse_Permutation, !sort_perm.
Qed.

(** When no two items of a feed share a timestamp, its newest-first
    order is exactly its oldest-first order read backwards. *)
Theorem newest_first_reverses_oldest_first :
  forall (feed : ProfileView.AccountFeed) (error : option ErrorInfo)
         (accountComments : list Comment),
    NoDup (map timestamp
             (ProfileView.filteredComments feed
                (ProfileView.mkProps error accountComments "new"))) ->
    ProfileView.sortedComments feed (ProfileView.mkProps error accountComments "new")
    = reverse
        (ProfileView.sortedComments feed
           (ProfileView.mkProps error accountComments "old")).
Proof.
  intros feed error acc Hnd. unfold ProfileView.sortedComments.
  cbn [ProfileView.sortType].
  replace (ProfileView.filteredComments feed (ProfileView.mkProps error acc "old"))
    with (ProfileView.filteredComments feed (ProfileView.mkProps error acc "new"))
    by (by destruct feed).
  by apply sort_new_reverse_old.
Qed.

Lemma newest_first_reverses_oldest_first_witness :
  ProfileView.sortedComments ProfileView.Overview
    (ProfileView.mkProps None
       [mkComment "a" None 3; mkComment "b" (Some "a") 9; mkComment "c" None 5] "new")
  = reverse
      (ProfileView.sortedComments ProfileView.Overview
         (ProfileView.mkProps None
            [mkComment "a" None 3; mkComment "b" (Some "a") 9; mkComment "c" None 5]
            "old")).
Proof.
  apply (newest_first_reverses_oldest_first ProfileView.Overview None
           [mkComment "a" None 3; mkComment "b" (Some "a") 9; mkComment "c" None 5]).
  cbn [ProfileView.filteredComments ProfileView.accountComments map timestamp].
  apply (bool_decide_unpack (NoDup [3; 9; 5])). vm_compute. exact I.
Defined.
